(** * SQL sandboxing and row limiting of the CSV SQL tool (src/main.py)

    A shallow embedding of [_validate_sql] and [_wrap_query_with_limit]
    together with the string and regular-expression primitives of Python
    they rely on, followed by the properties of the two functions.

    Python [str] values are modelled as lists of characters.  A character is
    a code point below 256 (Rocq's [ascii], read as Latin-1): the classes
    [isspace], [lower_char] and [isword] below are Python's [str.isspace],
    [str.lower] and the [\w] class of [re] on exactly that range. *)

From Stdlib Require Import List Ascii String ZArith NArith Bool Lia.
From Stdlib Require Import Numbers.DecimalString Numbers.DecimalPos Numbers.DecimalZ.
Import ListNotations.

Local Open Scope bool_scope.
Local Open Scope char_scope.
Local Open Scope list_scope.

(** ** Characters and strings *)

Definition str := list ascii.

(** A string literal of the source. *)
Definition L (s : string) : str := list_ascii_of_string s.

Definition ord (c : ascii) : N := N_of_ascii c.

Definition between (lo hi n : N) : bool := (N.leb lo n) && (N.leb n hi).

(** [str.isspace] on one character: TAB..CR, FS..US, SPACE, NEL, NBSP. *)
Definition isspace (c : ascii) : bool :=
  let n := ord c in
  between 9 13 n || between 28 32 n || N.eqb n 133 || N.eqb n 160.

(** [str.lower] on one character: A-Z and the Latin-1 capitals. *)
Definition lower_char (c : ascii) : ascii :=
  let n := ord c in
  if between 65 90 n || between 192 214 n || between 216 222 n
  then ascii_of_N (n + 32) else c.

(** The class [\w] of [re] for [str] patterns: alphanumerics and underscore. *)
Definition isword (c : ascii) : bool :=
  let n := ord c in
  between 48 57 n || between 65 90 n || N.eqb n 95 || between 97 122 n
  || N.eqb n 170 || between 178 179 n || N.eqb n 181 || between 185 186 n
  || between 188 190 n || between 192 214 n || between 216 246 n
  || between 248 255 n.

(** [s.lower()] *)
Definition lower (s : str) : str := map lower_char s.

(** [s.lstrip(...)] and [s.rstrip(...)] for a set of characters given as a
    predicate; without argument Python strips whitespace. *)
Fixpoint lstrip_by (f : ascii -> bool) (s : str) : str :=
  match s with
  | [] => []
  | c :: s' => if f c then lstrip_by f s' else s
  end.

Definition rstrip_by (f : ascii -> bool) (s : str) : str :=
  rev (lstrip_by f (rev s)).

Definition lstrip (s : str) : str := lstrip_by isspace s.
Definition rstrip (s : str) : str := rstrip_by isspace s.
Definition strip (s : str) : str := rstrip (lstrip s).

(** [s.rstrip(chars)] *)
Definition rstrip_chars (chars : str) (s : str) : str :=
  rstrip_by (fun c => existsb (Ascii.eqb c) chars) s.

(** [s.startswith(prefix)] *)
Fixpoint startswith (prefix s : str) : bool :=
  match prefix with
  | [] => true
  | p :: prefix' =>
      match s with
      | [] => false
      | c :: s' => Ascii.eqb c p && startswith prefix' s'
      end
  end.

(** [s.startswith(tuple)] *)
Definition startswith_any (prefixes : list str) (s : str) : bool :=
  existsb (fun p => startswith p s) prefixes.

(** [s.endswith(suffix)] *)
Definition endswith (suffix s : str) : bool :=
  startswith (rev suffix) (rev s).

(** [sub in s] *)
Fixpoint contains (sub s : str) : bool :=
  startswith sub s ||
  match s with
  | [] => false
  | _ :: s' => contains sub s'
  end.

(** [not s] *)
Definition is_empty (s : str) : bool :=
  match s with [] => true | _ => false end.

(** [f"{n}"] for an [int]. *)
Definition format_int (n : Z) : str :=
  L (NilZero.string_of_int (Z.to_int n)).

(** ** The fragment of [re] used by the source

    Every pattern of the source is a sequence of literal characters, [\b]
    and [\s+]. *)

Inductive node : Type :=
| Lit (c : ascii)      (* a literal character *)
| Spaces               (* \s+ *)
| WordB.               (* \b *)

Definition pattern := list node.

(** Reading a raw pattern string of the source. *)
Fixpoint compile (p : str) : pattern :=
  match p with
  | [] => []
  | c :: r =>
      match r with
      | c1 :: r1 =>
          if Ascii.eqb c "\" && Ascii.eqb c1 "b" then WordB :: compile r1
          else
            match r1 with
            | c2 :: r2 =>
                if Ascii.eqb c "\" && Ascii.eqb c1 "s" && Ascii.eqb c2 "+"
                then Spaces :: compile r2
                else Lit c :: compile r
            | [] => Lit c :: compile r
            end
      | [] => [Lit c]
      end
  end.

Definition is_word_opt (o : option ascii) : bool :=
  match o with Some c => isword c | None => false end.

(** [\b]: exactly one side of the position is a word character. *)
Definition at_boundary (prev : option ascii) (s : str) : bool :=
  xorb (is_word_opt prev) (is_word_opt (hd_error s)).

(** [\s+] followed by the continuation [k]: one or more whitespace
    characters, longest run first, shorter runs on backtracking. *)
Fixpoint spaces_then (k : option ascii -> str -> bool) (s : str) : bool :=
  match s with
  | [] => false
  | c :: s' => isspace c && (spaces_then k s' || k (Some c) s')
  end.

(** Does the pattern match at the current position?  [prev] is the
    character just before the position (None at the start of the text). *)
Fixpoint match_here (p : pattern) : option ascii -> str -> bool :=
  match p with
  | [] => fun _ _ => true
  | Lit c :: p' =>
      fun _ s =>
        match s with
        | [] => false
        | x :: s' => Ascii.eqb x c && match_here p' (Some x) s'
        end
  | WordB :: p' => fun prev s => at_boundary prev s && match_here p' prev s
  | Spaces :: p' => fun _ s => spaces_then (match_here p') s
  end.

(** A match starting at this position or at any later one. *)
Fixpoint search_from (p : pattern) (prev : option ascii) (s : str) : bool :=
  match_here p prev s ||
  match s with
  | [] => false
  | c :: s' => search_from p (Some c) s'
  end.

(** [re.search(pattern, s)] and [re.match(pattern, s)] as truth values. *)
Definition re_search (pat : string) (s : str) : bool :=
  search_from (compile (L pat)) None s.

Definition re_match (pat : string) (s : str) : bool :=
  match_here (compile (L pat)) None s.

(** The number of positions of [s] at which the pattern matches. *)
Fixpoint count_from (p : pattern) (prev : option ascii) (s : str) : nat :=
  (if match_here p prev s then 1 else 0) +
  match s with
  | [] => 0
  | c :: s' => count_from p (Some c) s'
  end.

Definition re_count (pat : string) (s : str) : nat :=
  count_from (compile (L pat)) None s.

(** ** The program *)

(** [fastapi.HTTPException(status_code, detail)] *)
Record HTTPException : Type := mkHTTPException {
  status_code : Z;
  detail : string
}.

(** The result of a call that either returns a value or raises. *)
Inductive outcome (A : Type) : Type :=
| Returned (a : A)
| Raised (e : HTTPException).

Arguments Returned {A} a.
Arguments Raised {A} e.

Notation "'when' c 'raise' e ;; k" :=
  (if c then Raised e else k)
  (at level 100, c at level 99, e at level 99, k at level 200,
   format "'[v' 'when'  c  'raise'  e  ;; '/' k ']'").

Definition bind {A B : Type} (m : outcome A) (f : A -> outcome B) : outcome B :=
  match m with
  | Returned a => f a
  | Raised e => Raised e
  end.

Definition DEFAULT_MAX_ROWS : Z := 1000.

(** [_wrap_query_with_limit], lines 106-124. *)
Definition _wrap_query_with_limit (sql : str) (max_rows : Z) : str :=
  let cleaned := rstrip_chars (L ";") (strip sql) in
  let lower_sql := lstrip (lower cleaned) in
  if negb (startswith (L "select") lower_sql) then cleaned
  else if re_search "\blimit\b" lower_sql then cleaned
  else L "SELECT * FROM (" ++ cleaned ++ L ") AS subquery LIMIT "
         ++ format_int max_rows.

Definition FORBIDDEN_PATTERNS : list string :=
  [ "\bread_csv_auto\b";
    "\bread_parquet\b";
    "\bparquet_scan\b";
    "\bhttpfs\b";
    "\bcopy\b";
    "\battach\b";
    "\bdetach\b";
    "\bpragma\b";
    "\binstall\b";
    "\bload\b";
    "\bexport\b";
    "\bimport\b";
    "\bcreate\s+table\b";
    "\bdrop\s+table\b";
    "\balter\b";
    "\btruncate\b";
    "\bcall\b";
    "\bsystem\b" ]%string.

Definition allowed_verbs : list str :=
  [L "select"; L "insert"; L "update"; L "delete"].

Definition msg_empty : string := "SQL query cannot be empty.".
Definition msg_multiple : string :=
  "Multiple SQL statements are not allowed. Please run one statement at a time.".
Definition msg_verb : string :=
  "Only SELECT, INSERT, UPDATE and DELETE statements are allowed.".
Definition msg_filesystem : string := "File system access is not allowed.".
Definition msg_forbidden : string :=
  "This query uses a disallowed command or function.".
Definition msg_join : string :=
  "JOIN is not allowed. You can only work with the 'tablename' table.".
Definition msg_from : string :=
  "You can only access the 'tablename' table loaded from your CSV.".
Definition msg_update : string := "You can only UPDATE the 'tablename' table.".
Definition msg_delete : string :=
  "You can only DELETE from the 'tablename' table.".
Definition msg_insert : string :=
  "You can only INSERT into the 'tablename' table.".

Definition bad_request (d : string) : HTTPException := mkHTTPException 400 d.

(** Lines 163-165: trim, then drop one trailing semicolon. *)
Definition strip_terminator (sql : str) : str :=
  let stripped := strip sql in
  if endswith (L ";") stripped then removelast stripped else stripped.

(** [_validate_sql], lines 151-235. *)
Definition _validate_sql (sql : str) : outcome str :=
  when is_empty sql || is_empty (strip sql) raise bad_request msg_empty ;;
  let stripped := strip_terminator sql in
  let lower_sql := lower stripped in
  when contains (L ";") lower_sql raise bad_request msg_multiple ;;
  when negb (startswith_any allowed_verbs (lstrip lower_sql))
    raise bad_request msg_verb ;;
  when contains (L "/etc/") lower_sql || contains (L "..") lower_sql
    raise bad_request msg_filesystem ;;
  when existsb (fun pattern => re_search pattern lower_sql) FORBIDDEN_PATTERNS
    raise bad_request msg_forbidden ;;
  when re_search "\bjoin\b" lower_sql raise bad_request msg_join ;;
  when re_search "\bfrom\b" lower_sql
       && negb (re_search "\bfrom\s+tablename\b" lower_sql)
    raise bad_request msg_from ;;
  when startswith (L "update ") lower_sql
       && negb (re_match "update\s+tablename\b" lower_sql)
    raise bad_request msg_update ;;
  when startswith (L "delete ") lower_sql
       && negb (re_match "delete\s+from\s+tablename\b" lower_sql)
    raise bad_request msg_delete ;;
  when startswith (L "insert ") lower_sql
       && negb (re_match "insert\s+into\s+tablename\b" lower_sql)
    raise bad_request msg_insert ;;
  Returned stripped.

(** The first two steps of [run_query], lines 245-248. *)
Definition final_sql (body_sql : str) : outcome str :=
  bind (_validate_sql body_sql)
       (fun safe_sql => Returned (_wrap_query_with_limit safe_sql DEFAULT_MAX_ROWS)).

(** ** The checks as an ordered list of named rules (spec 4.1, 7 and 9) *)

Inductive write_verb : Type := Update | Delete | Insert.

Inductive rule : Type :=
| EmptyQuery
| MultipleStatements
| VerbNotAllowed
| FilesystemAccess
| DisallowedConstruct
| JoinNotAllowed
| WrongTable
| WrongTableForVerb (v : write_verb).

Definition reason (r : rule) : string :=
  match r with
  | EmptyQuery => msg_empty
  | MultipleStatements => msg_multiple
  | VerbNotAllowed => msg_verb
  | FilesystemAccess => msg_filesystem
  | DisallowedConstruct => msg_forbidden
  | JoinNotAllowed => msg_join
  | WrongTable => msg_from
  | WrongTableForVerb Update => msg_update
  | WrongTableForVerb Delete => msg_delete
  | WrongTableForVerb Insert => msg_insert
  end.

Definition verb_prefix (v : write_verb) : str :=
  match v with
  | Update => L "update "
  | Delete => L "delete "
  | Insert => L "insert "
  end.

Definition verb_pattern (v : write_verb) : string :=
  match v with
  | Update => "update\s+tablename\b"
  | Delete => "delete\s+from\s+tablename\b"
  | Insert => "insert\s+into\s+tablename\b"
  end.

(** Is the rule violated by the input?  The first rule reads the raw input,
    the others the folded text. *)
Definition violates (r : rule) (sql : str) : bool :=
  let lower_sql := lower (strip_terminator sql) in
  match r with
  | EmptyQuery => forallb isspace sql
  | MultipleStatements => contains (L ";") lower_sql
  | VerbNotAllowed => negb (startswith_any allowed_verbs (lstrip lower_sql))
  | FilesystemAccess => contains (L "/etc/") lower_sql || contains (L "..") lower_sql
  | DisallowedConstruct =>
      existsb (fun pattern => re_search pattern lower_sql) FORBIDDEN_PATTERNS
  | JoinNotAllowed => re_search "\bjoin\b" lower_sql
  | WrongTable =>
      re_search "\bfrom\b" lower_sql
      && negb (re_search "\bfrom\s+tablename\b" lower_sql)
  | WrongTableForVerb v =>
      startswith (verb_prefix v) lower_sql
      && negb (re_match (verb_pattern v) lower_sql)
  end.

(** Steps 1 and 3 to 8 of the algorithm, then step 9 for each verb. *)
Definition general_rules : list rule :=
  [EmptyQuery; MultipleStatements; VerbNotAllowed; FilesystemAccess;
   DisallowedConstruct; JoinNotAllowed; WrongTable].

Definition check_order : list rule :=
  general_rules ++ map WrongTableForVerb [Update; Delete; Insert].

Definition first_violation (sql : str) : option rule :=
  find (fun r => violates r sql) check_order.

(** The Validator of the spec: the first violated rule rejects, with its
    reason and a caller-fault status; otherwise the cleaned text is returned. *)
Definition Validator (sql : str) : outcome str :=
  match first_violation sql with
  | Some r => Raised (bad_request (reason r))
  | None => Returned (strip_terminator sql)
  end.

(** ** Side conditions on patterns *)

(** No literal of the pattern is the character [b]. *)
Fixpoint no_lit (b : ascii) (p : pattern) : bool :=
  match p with
  | [] => true
  | Lit c :: p' => negb (Ascii.eqb b c) && no_lit b p'
  | _ :: p' => no_lit b p'
  end.

(** A character no match of the pattern can contain or step over. *)
Definition barrier (p : pattern) (b : ascii) : bool :=
  negb (isword b) && negb (isspace b) && no_lit b p.

Fixpoint has_lit (p : pattern) : bool :=
  match p with
  | [] => false
  | Lit _ :: _ => true
  | _ :: p' => has_lit p'
  end.

(** No literal is whitespace and every [\s+] is followed, sooner or later,
    by a literal. *)
Fixpoint solid (p : pattern) : bool :=
  match p with
  | [] => true
  | Lit c :: p' => negb (isspace c) && solid p'
  | Spaces :: p' => has_lit p' && solid p'
  | WordB :: p' => solid p'
  end.

(** ** Accepted statements and the wrapped query *)

(** A text that is empty or starts with a character that is not whitespace. *)
Definition no_leading_space (s : str) : bool :=
  match s with [] => true | c :: _ => negb (isspace c) end.

(** What acceptance says about the folded text: the checks of lines
    169-233, each as a fact. *)
Record accepted_text (l : str) : Prop := {
  no_separator : contains (L ";") l = false;
  verb_allowed : startswith_any allowed_verbs (lstrip l) = true;
  no_etc : contains (L "/etc/") l = false;
  no_dotdot : contains (L "..") l = false;
  no_forbidden :
    forall pat, In pat FORBIDDEN_PATTERNS -> re_search pat l = false;
  no_join : re_search "\bjoin\b" l = false;
  from_tablename :
    re_search "\bfrom\b" l = true -> re_search "\bfrom\s+tablename\b" l = true;
  update_tablename :
    startswith (L "update ") l = true ->
    re_match "update\s+tablename\b" l = true;
  delete_tablename :
    startswith (L "delete ") l = true ->
    re_match "delete\s+from\s+tablename\b" l = true;
  insert_tablename :
    startswith (L "insert ") l = true ->
    re_match "insert\s+into\s+tablename\b" l = true
}.

(** The shape of a returned statement: no leading whitespace, not empty, no
    semicolon, and nothing but whitespace after its trimmed text. *)
Record accepted_shape (s : str) : Prop := {
  shape_head : no_leading_space s = true;
  shape_nonempty : s <> [];
  shape_no_semicolon : contains (L ";") s = false;
  shape_tail : exists ws, s = strip s ++ ws /\ forallb isspace ws = true
}.

(** The text of line 124. *)
Definition wrapped (cleaned : str) (max_rows : Z) : str :=
  L "SELECT * FROM (" ++ cleaned ++ L ") AS subquery LIMIT "
    ++ format_int max_rows.

(** The folded text around the subquery, parentheses apart. *)
Definition wrap_prefix : str := L "select * from ".
Definition wrap_suffix : str := L " as subquery limit 1000".

(** A pattern that cannot match across the parentheses of the wrapping nor
    inside the text the Limiter adds. *)
Definition quiet (p : pattern) : bool :=
  barrier p "(" && barrier p ")"
  && negb (search_from p None wrap_prefix)
  && negb (search_from p None wrap_suffix).

(** Case analysis over the 256 characters. *)
Ltac all_chars c :=
  destruct c as [[|] [|] [|] [|] [|] [|] [|] [|]]; vm_compute; try reflexivity;
  try discriminate; try (intros; discriminate).

(** ** The request handlers *)

(** The conditions under which a statement is handed to the engine: no
    semicolon, an allowed verb in front, and none of the texts and keywords
    that lines 185-204 reject. *)
Definition safe_statement (q : str) : bool :=
  negb (contains (L ";") q)
  && startswith_any allowed_verbs (lower q)
  && negb (contains (L "/etc/") (lower q))
  && negb (contains (L "..") (lower q))
  && negb (existsb (fun pattern => re_search pattern (lower q)) FORBIDDEN_PATTERNS)
  && negb (re_search "\bjoin\b" (lower q)).

(** The characters a formatted [int] consists of. *)
Definition is_numeral_char (c : ascii) : bool :=
  existsb (Ascii.eqb c) (L "-0123456789").

(** Reading a decimal numeral back. *)
Definition decimal_value (s : str) : option Z :=
  option_map Z.of_int (NilZero.int_of_string (string_of_list_ascii s)).

(** An exception caught by a [try] block: an [HTTPException], or any other
    exception with the text [str(e)] gives. *)
Inductive exception : Type :=
| HTTPError (e : HTTPException)
| OtherError (message : string).

Section QueryHandler.

(** The values of a row ([Any] in [QueryResponse]). *)
Variable value : Type.

Record QueryResponse : Type := mkQueryResponse {
  columns : list string;
  rows : list (list value)
}.

(** What lines 251-260 obtain for a statement: [get_connection], [execute]
    or [fetchall] raises; or the result has no description; or it has one
    (name first in each entry) and [fetchall] gives the rows. *)
Inductive execution : Type :=
| Fails (e : exception)
| NoResultSet
| ResultSet (description : list (string * string)) (fetched : list (list value)).

Variable execute : str -> execution.

(** [run_query], lines 239-267. *)
Definition run_query (body_sql : str) : outcome QueryResponse :=
  bind (final_sql body_sql)
       (fun final =>
          match execute final with
          | Fails (HTTPError e) => Raised e
          | Fails (OtherError e) =>
              Raised (bad_request ("Query failed: " ++ e)%string)
          | NoResultSet => Returned (mkQueryResponse [] [])
          | ResultSet description fetched =>
              Returned (mkQueryResponse (map fst description) fetched)
          end).

End QueryHandler.

Arguments mkQueryResponse {value} columns rows.
Arguments Fails {value} e.
Arguments NoResultSet {value}.
Arguments ResultSet {value} description fetched.
Arguments run_query {value} execute body_sql.

Section UploadHandler.

(** The uploaded file as [file.read] sees it, and [await file.read(size)]. *)
Variable reader : Type.
Variable read : reader -> N -> list Byte.byte * reader.

(** Lines 84-95 on the content of the temporary file: the text of the
    exception raised, or the number of rows counted. *)
Variable load : list Byte.byte -> string + Z.

Record UploadResponse : Type := mkUploadResponse {
  status : string;
  rows_loaded : Z
}.

Definition CHUNK_SIZE : N := 1024 * 1024.

(** The loop of lines 74-78: what has been written to the temporary file
    when an empty chunk ends it. *)
Fixpoint copy_chunks (fuel : nat) (file : reader) (tmp : list Byte.byte)
  : option (list Byte.byte) :=
  match fuel with
  | O => None
  | S fuel' =>
      let (chunk, file') := read file CHUNK_SIZE in
      match chunk with
      | [] => Some tmp
      | _ :: _ => copy_chunks fuel' file' (tmp ++ chunk)
      end
  end.

(** [upload_csv], lines 61-103. *)
Definition upload_csv (fuel : nat) (filename : str) (file : reader)
  : option (outcome UploadResponse) :=
  if negb (endswith (L ".csv") (lower filename))
  then Some (Raised (mkHTTPException 400 "Only .csv files are supported."))
  else
    match copy_chunks fuel file [] with
    | None => None
    | Some temp =>
        match load temp with
        | inl e =>
            Some (Raised (mkHTTPException 500 ("Failed to load CSV: " ++ e)%string))
        | inr n => Some (Returned (mkUploadResponse "ok" n))
        end
    end.

End UploadHandler.

Arguments copy_chunks {reader} read fuel file tmp.
Arguments upload_csv {reader} read load fuel filename file.

(** A file held in memory: [read] takes the next bytes, up to [size]. *)
Definition memory_read (file : list Byte.byte) (size : N)
  : list Byte.byte * list Byte.byte :=
  (firstn (N.to_nat size) file, skipn (N.to_nat size) file).

(** ** Sanity checks on concrete inputs *)

Example compile_from_tablename :
  compile (L "\bfrom\s+tablename\b") =
  [WordB; Lit "f"; Lit "r"; Lit "o"; Lit "m"; Spaces;
   Lit "t"; Lit "a"; Lit "b"; Lit "l"; Lit "e"; Lit "n"; Lit "a"; Lit "m"; Lit "e";
   WordB].
Proof. reflexivity. Qed.

Example validate_scenario_1 :
  _validate_sql (L "SELECT * FROM tablename") = Returned (L "SELECT * FROM tablename").
Proof. vm_compute. reflexivity. Qed.

Example wrap_scenario_2 :
  _wrap_query_with_limit (L "SELECT * FROM tablename LIMIT 5") DEFAULT_MAX_ROWS
  = L "SELECT * FROM tablename LIMIT 5".
Proof. vm_compute. reflexivity. Qed.

Example validate_drop_table :
  _validate_sql (L "DROP TABLE tablename") = Raised (bad_request msg_verb).
Proof. vm_compute. reflexivity. Qed.

Example validate_scenario_6 :
  _validate_sql (L "SELECT * FROM tablename JOIN other ON 1=1")
  = Raised (bad_request msg_join).
Proof. vm_compute. reflexivity. Qed.

Example word_boundary_after_table_name :
  _validate_sql (L "SELECT * FROM tablename2") = Raised (bad_request msg_from).
Proof. vm_compute. reflexivity. Qed.

Example several_spaces_after_from :
  _validate_sql (L "select a from   tablename where a > 1;")
  = Returned (L "select a from   tablename where a > 1").
Proof. vm_compute. reflexivity. Qed.

Example forbidden_word_needs_boundaries :
  _validate_sql (L "SELECT loader FROM tablename")
  = Returned (L "SELECT loader FROM tablename")
  /\ _validate_sql (L "SELECT load FROM tablename")
     = Raised (bad_request msg_forbidden).
Proof. vm_compute. split; reflexivity. Qed.

Example dots_in_a_literal :
  _validate_sql (L "SELECT * FROM tablename WHERE a = 'x..y'")
  = Raised (bad_request msg_filesystem).
Proof. vm_compute. reflexivity. Qed.

(** ** Facts about the character classes *)

Lemma isspace_not_word (c : ascii) : isspace c = true -> isword c = false.
Proof. all_chars c. Qed.

Lemma isspace_lower (c : ascii) : isspace (lower_char c) = isspace c.
Proof. all_chars c. Qed.

Lemma lower_semicolon (c : ascii) : Ascii.eqb (lower_char c) ";" = Ascii.eqb c ";".
Proof. all_chars c. Qed.

(** ** Stripping *)

Section Stripping.
Variable f : ascii -> bool.

Lemma lstrip_by_split (s : str) :
  exists pre, s = pre ++ lstrip_by f s /\ forallb f pre = true.
Proof.
  induction s as [|c s [pre [E A]]]; simpl.
  - exists []. auto.
  - destruct (f c) eqn:Fc.
    + exists (c :: pre). simpl. rewrite Fc, A. split; [congruence | reflexivity].
    + exists []. auto.
Qed.

Lemma lstrip_by_idem (s : str) : lstrip_by f (lstrip_by f s) = lstrip_by f s.
Proof.
  induction s as [|c s IH]; simpl; auto.
  destruct (f c) eqn:Fc; auto. simpl. now rewrite Fc.
Qed.

Lemma lstrip_by_all (s : str) : forallb f s = true -> lstrip_by f s = [].
Proof.
  induction s as [|c s IH]; simpl; auto.
  intros H. apply andb_true_iff in H as [Fc A]. now rewrite Fc, IH.
Qed.

Lemma lstrip_by_snoc (a : str) (c : ascii) :
  f c = false -> lstrip_by f (a ++ [c]) = lstrip_by f a ++ [c].
Proof.
  intros Fc. induction a as [|x a IH]; simpl.
  - now rewrite Fc.
  - destruct (f x); auto.
Qed.

Lemma rstrip_by_cons (c : ascii) (r : str) :
  f c = false -> rstrip_by f (c :: r) = c :: rstrip_by f r.
Proof.
  intros Fc. unfold rstrip_by. simpl.
  rewrite lstrip_by_snoc by assumption.
  rewrite rev_app_distr. reflexivity.
Qed.

Lemma rstrip_by_split (s : str) :
  exists post, s = rstrip_by f s ++ post /\ forallb f post = true.
Proof.
  unfold rstrip_by.
  destruct (lstrip_by_split (rev s)) as [pre [E A]].
  exists (rev pre). split.
  - rewrite <- rev_app_distr, <- E. symmetry. apply rev_involutive.
  - rewrite forallb_forall in *. intros x Hx. apply A. now apply in_rev.
Qed.

Lemma rstrip_by_idem (s : str) : rstrip_by f (rstrip_by f s) = rstrip_by f s.
Proof.
  unfold rstrip_by. rewrite rev_involutive. now rewrite lstrip_by_idem.
Qed.

Lemma rstrip_by_all (s : str) : forallb f s = true -> rstrip_by f s = [].
Proof.
  intros A. unfold rstrip_by. rewrite lstrip_by_all; auto.
  rewrite forallb_forall in *. intros x Hx. apply A. now apply in_rev.
Qed.

(** Nothing is stripped from a text whose last character is kept. *)
Lemma rstrip_by_snoc (a : str) (c : ascii) :
  f c = false -> rstrip_by f (a ++ [c]) = a ++ [c].
Proof.
  intros Fc. unfold rstrip_by. rewrite rev_app_distr. simpl. rewrite Fc.
  change (c :: rev a) with (rev [c] ++ rev a).
  rewrite <- rev_app_distr. apply rev_involutive.
Qed.

Lemma rstrip_by_none (s : str) :
  (forall c, In c s -> f c = false) -> rstrip_by f s = s.
Proof.
  intros H. destruct (rev s) as [|c r] eqn:E.
  - apply (f_equal (@rev ascii)) in E. rewrite rev_involutive in E. now subst.
  - apply (f_equal (@rev ascii)) in E. rewrite rev_involutive in E. simpl in E.
    subst s. apply rstrip_by_snoc. apply H. apply in_or_app. right. now left.
Qed.

(** Stripping on the right keeps a first character that is not stripped. *)
Lemma lstrip_rstrip_by (s : str) :
  lstrip_by f (rstrip_by f (lstrip_by f s)) = rstrip_by f (lstrip_by f s).
Proof.
  destruct (lstrip_by f s) as [|c r] eqn:E.
  - reflexivity.
  - assert (Fc : f c = false).
    { destruct (f c) eqn:Fc; auto.
      pose proof (lstrip_by_idem s) as I. rewrite E in I. simpl in I.
      rewrite Fc in I.
      destruct (lstrip_by_split r) as [pre [Er _]].
      apply (f_equal (@List.length ascii)) in I. rewrite Er in I at 2.
      simpl in I. rewrite length_app in I. lia. }
    rewrite rstrip_by_cons by assumption. simpl. now rewrite Fc.
Qed.
End Stripping.

Lemma lstrip_fixed (s : str) : no_leading_space s = true -> lstrip s = s.
Proof.
  destruct s as [|c r]; simpl; auto. unfold lstrip. simpl.
  now destruct (isspace c).
Qed.

Lemma lstrip_no_leading_space (s : str) : no_leading_space (lstrip s) = true.
Proof.
  unfold lstrip. induction s as [|c s IH]; simpl; auto.
  destruct (isspace c) eqn:E; auto. simpl. now rewrite E.
Qed.

Lemma strip_no_leading_space (s : str) : no_leading_space (strip s) = true.
Proof.
  unfold strip, rstrip, lstrip. rewrite <- lstrip_rstrip_by.
  apply lstrip_no_leading_space.
Qed.

Lemma strip_idem (s : str) : strip (strip s) = strip s.
Proof.
  unfold strip at 1. rewrite (lstrip_fixed (strip s)) by apply strip_no_leading_space.
  unfold strip, rstrip. apply rstrip_by_idem.
Qed.

Lemma strip_all_space (s : str) : forallb isspace s = true -> strip s = [].
Proof.
  intros A. unfold strip, lstrip. now rewrite lstrip_by_all.
Qed.

(** The input is its trimmed text between two runs of whitespace. *)
Lemma strip_split (s : str) :
  exists pre post,
    s = pre ++ strip s ++ post
    /\ forallb isspace pre = true /\ forallb isspace post = true.
Proof.
  destruct (lstrip_by_split isspace s) as [pre [E A]].
  destruct (rstrip_by_split isspace (lstrip s)) as [post [E' A']].
  exists pre, post. repeat split; auto.
  unfold strip, rstrip. rewrite <- E'. exact E.
Qed.

Lemma no_leading_space_removelast (s : str) :
  no_leading_space s = true -> no_leading_space (removelast s) = true.
Proof.
  destruct s as [|c [|d r]]; simpl; auto.
Qed.

Lemma lower_app (a b : str) : lower (a ++ b) = lower a ++ lower b.
Proof. apply map_app. Qed.

Lemma lower_all_space (s : str) :
  forallb isspace (lower s) = forallb isspace s.
Proof.
  induction s as [|c s IH]; simpl; auto. now rewrite isspace_lower, IH.
Qed.

Lemma lower_no_leading_space (s : str) :
  no_leading_space (lower s) = no_leading_space s.
Proof. destruct s as [|c r]; simpl; auto. now rewrite isspace_lower. Qed.

(** ** Matching across a separator

    A character that is neither a word character nor whitespace and that no
    literal of the pattern equals cannot take part in a match: the text on
    each side of it is searched on its own. *)

Lemma barrier_tail (n : node) (p : pattern) (b : ascii) :
  barrier (n :: p) b = true -> barrier p b = true.
Proof.
  unfold barrier. intros H. apply andb_true_iff in H as [H N].
  rewrite H. simpl. destruct n; simpl in N; auto.
  now apply andb_true_iff in N as [_ N].
Qed.

Lemma barrier_inv (p : pattern) (b : ascii) :
  barrier p b = true ->
  isword b = false /\ isspace b = false /\ no_lit b p = true.
Proof.
  unfold barrier. intros H. apply andb_true_iff in H as [H N].
  apply andb_true_iff in H as [W S].
  apply negb_true_iff in W. apply negb_true_iff in S. auto.
Qed.

Lemma match_here_prev (p : pattern) (a b : option ascii) (s : str) :
  is_word_opt a = is_word_opt b -> match_here p a s = match_here p b s.
Proof.
  revert a b s. induction p as [|n p IH]; intros a b s E; simpl; auto.
  destruct n; auto. unfold at_boundary. rewrite E. f_equal. now apply IH.
Qed.

Lemma match_here_barrier (p : pattern) (b : ascii) :
  barrier p b = true ->
  forall prev s r, match_here p prev (s ++ b :: r) = match_here p prev s.
Proof.
  induction p as [|n p IH]; intros B prev s r; simpl; auto.
  pose proof (barrier_tail _ _ _ B) as B'.
  destruct (barrier_inv _ _ B) as [Hw [Hs Hn]].
  destruct n.
  - destruct s as [|x s]; simpl.
    + simpl in Hn. apply andb_true_iff in Hn as [Hn _].
      apply negb_true_iff in Hn. now rewrite Hn.
    + now rewrite IH.
  - clear prev. induction s as [|x s IHs]; simpl.
    + now rewrite Hs.
    + now rewrite IHs, IH.
  - rewrite IH by assumption. f_equal. unfold at_boundary. f_equal.
    destruct s; simpl; auto.
Qed.

Lemma search_from_prev (p : pattern) (a b : option ascii) (s : str) :
  is_word_opt a = is_word_opt b -> search_from p a s = search_from p b s.
Proof.
  intros E. destruct s; simpl; now rewrite (match_here_prev p a b).
Qed.

Lemma search_from_barrier (p : pattern) (b : ascii) :
  barrier p b = true ->
  forall s prev r,
    search_from p prev (s ++ b :: r)
    = search_from p prev s || search_from p None r.
Proof.
  intros B. destruct (barrier_inv _ _ B) as [Hw _].
  induction s as [|x s IH]; intros prev r.
  - pose proof (match_here_barrier p b B prev [] r) as M. simpl in M.
    simpl app. cbn [search_from]. rewrite M, orb_false_r. f_equal.
    now apply search_from_prev.
  - pose proof (match_here_barrier p b B prev (x :: s) r) as M.
    simpl app in *. cbn [search_from]. rewrite M, IH. now rewrite orb_assoc.
Qed.

Lemma count_from_prev (p : pattern) (a b : option ascii) (s : str) :
  is_word_opt a = is_word_opt b -> count_from p a s = count_from p b s.
Proof.
  intros E. destruct s; simpl; now rewrite (match_here_prev p a b).
Qed.

Lemma count_from_barrier (p : pattern) (b : ascii) :
  barrier p b = true ->
  forall s prev r,
    count_from p prev (s ++ b :: r)
    = count_from p prev s + count_from p None r.
Proof.
  intros B. destruct (barrier_inv _ _ B) as [Hw _].
  induction s as [|x s IH]; intros prev r.
  - pose proof (match_here_barrier p b B prev [] r) as M. simpl in M.
    simpl app. cbn [count_from]. rewrite M, Nat.add_0_r. f_equal.
    now apply count_from_prev.
  - pose proof (match_here_barrier p b B prev (x :: s) r) as M.
    simpl app in *. cbn [count_from]. rewrite M, IH. now rewrite Nat.add_assoc.
Qed.

Lemma count_from_zero (p : pattern) (s : str) (prev : option ascii) :
  search_from p prev s = false -> count_from p prev s = 0.
Proof.
  revert prev. induction s as [|x s IH]; intros prev; simpl.
  - rewrite orb_false_r. now intros ->.
  - intros H. apply orb_false_iff in H as [-> H]. now rewrite IH.
Qed.

(** ** Matching before trailing whitespace *)

Lemma eqb_space_lit (w c : ascii) :
  isspace w = true -> isspace c = false -> Ascii.eqb w c = false.
Proof.
  intros Hw Hc. destruct (Ascii.eqb w c) eqn:E; auto.
  apply Ascii.eqb_eq in E. congruence.
Qed.

Lemma boundary_before_space (prev : option ascii) (ws : str) :
  forallb isspace ws = true -> at_boundary prev ws = at_boundary prev [].
Proof.
  destruct ws as [|w ws]; auto. simpl. intros H.
  apply andb_true_iff in H as [H _]. unfold at_boundary. simpl.
  now rewrite (isspace_not_word w H).
Qed.

Lemma match_here_lit_nil (p : pattern) (prev : option ascii) :
  has_lit p = true -> match_here p prev [] = false.
Proof.
  induction p as [|n p IH]; simpl; try discriminate.
  destruct n; auto. intros H. rewrite IH by assumption. apply andb_false_r.
Qed.

Lemma match_here_spaces (p : pattern) :
  solid p = true ->
  forall ws, forallb isspace ws = true ->
  forall prev s, match_here p prev (s ++ ws) = match_here p prev s.
Proof.
  induction p as [|n p IH]; intros S ws A prev s; simpl; auto.
  destruct n; simpl in S.
  - apply andb_true_iff in S as [Hc S]. apply negb_true_iff in Hc.
    destruct s as [|x s]; simpl.
    + destruct ws as [|w ws]; auto. simpl in A.
      apply andb_true_iff in A as [Hw _]. now rewrite (eqb_space_lit w c).
    + now rewrite IH.
  - apply andb_true_iff in S as [HL S]. clear prev.
    induction s as [|x s IHs]; simpl.
    + induction ws as [|w ws IHw]; simpl; auto.
      simpl in A. apply andb_true_iff in A as [Hw A].
      rewrite IHw by assumption. simpl.
      rewrite <- (app_nil_l ws), (IH S ws A), match_here_lit_nil by assumption.
      apply andb_false_r.
    + now rewrite IHs, IH.
  - rewrite IH by assumption. f_equal.
    destruct s; simpl; auto. now apply boundary_before_space.
Qed.

Lemma search_from_all_space (p : pattern) :
  solid p = true -> has_lit p = true ->
  forall ws prev, forallb isspace ws = true -> search_from p prev ws = false.
Proof.
  intros S HL. induction ws as [|w ws IH]; intros prev A.
  - simpl. now rewrite match_here_lit_nil.
  - cbn [search_from]. simpl in A. apply andb_true_iff in A as [Hw A].
    rewrite IH by assumption.
    rewrite <- (app_nil_l (w :: ws)), (match_here_spaces p S (w :: ws)).
    + now rewrite match_here_lit_nil.
    + simpl. now rewrite Hw.
Qed.

Lemma search_from_spaces (p : pattern) :
  solid p = true -> has_lit p = true ->
  forall ws, forallb isspace ws = true ->
  forall s prev, search_from p prev (s ++ ws) = search_from p prev s.
Proof.
  intros S HL ws A. induction s as [|x s IH]; intros prev.
  - simpl app. rewrite search_from_all_space by assumption.
    simpl. now rewrite match_here_lit_nil.
  - pose proof (match_here_spaces p S ws A prev (x :: s)) as M.
    simpl app in *. cbn [search_from]. now rewrite M, IH.
Qed.

(** ** Substring tests as literal patterns *)

Lemma startswith_match (pre s : str) (prev : option ascii) :
  startswith pre s = match_here (map Lit pre) prev s.
Proof.
  revert s prev. induction pre as [|c pre IH]; intros s prev; simpl; auto.
  destruct s as [|x s]; auto. now rewrite (IH s (Some x)).
Qed.

Lemma contains_search (sub s : str) (prev : option ascii) :
  contains sub s = search_from (map Lit sub) prev s.
Proof.
  revert prev. induction s as [|x s IH]; intros prev; simpl.
  - now rewrite (startswith_match sub [] prev).
  - now rewrite (startswith_match sub (x :: s) prev), (IH (Some x)).
Qed.

(** ** What acceptance means *)

Lemma existsb_false {A : Type} (f : A -> bool) (l : list A) :
  existsb f l = false <-> (forall x, In x l -> f x = false).
Proof.
  induction l as [|a l IH]; simpl.
  - split; [intros _ x [] | reflexivity].
  - rewrite orb_false_iff, IH. split.
    + intros [Ha Hl] x [<- | Hx]; auto.
    + intros H. split; [apply H; now left | intros x Hx; apply H; now right].
Qed.

Lemma guard_false (a b : bool) :
  a && negb b = false <-> (a = true -> b = true).
Proof. destruct a, b; simpl; intuition congruence. Qed.

Lemma strip_nonempty (sql : str) :
  is_empty sql || is_empty (strip sql) = false <-> strip sql <> [].
Proof.
  destruct sql as [|c r]; simpl.
  - split; [discriminate | intros H; now elim H].
  - destruct (strip (c :: r)); simpl; split; congruence.
Qed.

Lemma validate_returned_iff (sql s : str) :
  _validate_sql sql = Returned s <->
  strip sql <> [] /\ s = strip_terminator sql /\ accepted_text (lower s).
Proof.
  unfold _validate_sql. split.
  - destruct (is_empty sql || is_empty (strip sql)) eqn:E0; [discriminate|].
    destruct (contains (L ";") _) eqn:E1; [discriminate|].
    destruct (negb (startswith_any _ _)) eqn:E2; [discriminate|].
    destruct (contains (L "/etc/") _ || contains (L "..") _) eqn:E3; [discriminate|].
    destruct (existsb _ FORBIDDEN_PATTERNS) eqn:E4; [discriminate|].
    destruct (re_search "\bjoin\b" _) eqn:E5; [discriminate|].
    destruct (re_search "\bfrom\b" _ && _) eqn:E6; [discriminate|].
    destruct (startswith (L "update ") _ && _) eqn:E7; [discriminate|].
    destruct (startswith (L "delete ") _ && _) eqn:E8; [discriminate|].
    destruct (startswith (L "insert ") _ && _) eqn:E9; [discriminate|].
    intros H. injection H as <-.
    split; [now apply strip_nonempty|]. split; [reflexivity|].
    apply orb_false_iff in E3 as [E3 E3'].
    apply negb_false_iff in E2.
    constructor; auto.
    + intros pat Hp. exact (proj1 (existsb_false _ _) E4 pat Hp).
    + now apply guard_false.
    + now apply guard_false.
    + now apply guard_false.
    + now apply guard_false.
  - intros [N [-> A]]. destruct A.
    rewrite (proj2 (strip_nonempty sql) N).
    rewrite no_separator0, verb_allowed0, no_etc0, no_dotdot0. cbn [negb orb].
    rewrite (proj2 (existsb_false _ _) no_forbidden0).
    rewrite no_join0.
    rewrite (proj2 (guard_false _ _) from_tablename0).
    rewrite (proj2 (guard_false _ _) update_tablename0).
    rewrite (proj2 (guard_false _ _) delete_tablename0).
    rewrite (proj2 (guard_false _ _) insert_tablename0).
    reflexivity.
Qed.

(** ** The shape of an accepted statement *)

Lemma in_strip (c : ascii) (s : str) : In c (strip s) -> In c s.
Proof.
  destruct (strip_split s) as [pre [post [E _]]]. intros H. rewrite E.
  apply in_or_app. right. apply in_or_app. now left.
Qed.

Lemma contains_char (c : ascii) (s : str) :
  contains [c] s = false <-> (forall x, In x s -> Ascii.eqb x c = false).
Proof.
  induction s as [|y s IH]; simpl.
  - split; [intros _ x [] | reflexivity].
  - rewrite andb_true_r, orb_false_iff, IH. split.
    + intros [Hy Hs] x [<- | Hx]; auto.
    + intros H. split; [apply H; now left | intros x Hx; apply H; now right].
Qed.

Lemma lower_no_semicolon (s : str) :
  contains (L ";") (lower s) = false -> contains (L ";") s = false.
Proof.
  change (L ";") with [";"]. rewrite !contains_char. intros H x Hx.
  rewrite <- lower_semicolon. apply H. unfold lower. now apply in_map.
Qed.

Lemma strip_of_no_leading_space (s : str) :
  no_leading_space s = true ->
  exists ws, s = strip s ++ ws /\ forallb isspace ws = true.
Proof.
  intros N. unfold strip. rewrite (lstrip_fixed s N).
  apply rstrip_by_split.
Qed.

Lemma strip_terminator_no_leading_space (sql : str) :
  no_leading_space (strip_terminator sql) = true.
Proof.
  unfold strip_terminator. destruct (endswith _ _).
  - apply no_leading_space_removelast, strip_no_leading_space.
  - apply strip_no_leading_space.
Qed.

Lemma startswith_nil (p : str) : p <> [] -> startswith p [] = false.
Proof. destruct p; simpl; congruence. Qed.

Lemma verb_nonempty (l : str) :
  startswith_any allowed_verbs (lstrip l) = true -> l <> [].
Proof. intros H ->. discriminate H. Qed.

Lemma returned_shape (sql s : str) :
  _validate_sql sql = Returned s -> accepted_shape s.
Proof.
  intros H. apply validate_returned_iff in H as [N [E A]].
  assert (Hd : no_leading_space s = true)
    by (rewrite E; apply strip_terminator_no_leading_space).
  constructor; auto.
  - intros ->. now apply (verb_nonempty _ (verb_allowed _ A)).
  - apply lower_no_semicolon, A.
  - now apply strip_of_no_leading_space.
Qed.

Lemma strip_keeps_shape (s : str) :
  accepted_shape s -> accepted_shape (strip s).
Proof.
  intros [Hd Ne Sc [ws [E A]]]. constructor.
  - apply strip_no_leading_space.
  - intros Z. rewrite Z in E. simpl in E. subst s.
    destruct ws as [|w ws]; [now elim Ne|].
    simpl in A, Hd. apply andb_true_iff in A as [Hw _]. now rewrite Hw in Hd.
  - change (L ";") with [";"] in *. rewrite contains_char in *.
    intros x Hx. apply Sc. now apply in_strip.
  - exists []. rewrite strip_idem, app_nil_r. auto.
Qed.

(** The Limiter's own trimming does nothing more than [strip] to a text
    without semicolon. *)
Lemma cleaned_of_shape (s : str) :
  accepted_shape s -> rstrip_chars (L ";") (strip s) = strip s.
Proof.
  intros Sh. destruct (strip_keeps_shape s Sh) as [_ _ Sc _].
  unfold rstrip_chars. apply rstrip_by_none. intros c Hc.
  change (L ";") with [";"] in *. rewrite contains_char in Sc.
  simpl. now rewrite (Sc c Hc).
Qed.

Lemma startswith_select_strip (s : str) :
  accepted_shape s ->
  startswith (L "select") (lstrip (lower (strip s)))
  = startswith (L "select") (lower s).
Proof.
  intros Sh. destruct (strip_keeps_shape s Sh) as [Hd _ _ _].
  rewrite lstrip_fixed by (now rewrite lower_no_leading_space).
  destruct Sh as [_ _ _ [ws [E A]]]. rewrite E at 2. rewrite lower_app.
  rewrite !(startswith_match _ _ None).
  symmetry. apply match_here_spaces; [reflexivity|].
  now rewrite lower_all_space.
Qed.

Lemma search_strip (pat : string) (s : str) :
  solid (compile (L pat)) = true -> has_lit (compile (L pat)) = true ->
  accepted_shape s ->
  re_search pat (lower (strip s)) = re_search pat (lower s).
Proof.
  intros So HL [_ _ _ [ws [E A]]]. rewrite E at 2. rewrite lower_app.
  unfold re_search. symmetry. apply search_from_spaces; auto.
  now rewrite lower_all_space.
Qed.

(** The Limiter on an accepted statement, in terms of the folded text the
    Validator inspected. *)
Lemma wrap_of_accepted (s : str) (max_rows : Z) :
  accepted_shape s ->
  _wrap_query_with_limit s max_rows =
  if negb (startswith (L "select") (lower s)) then strip s
  else if re_search "\blimit\b" (lower s) then strip s
  else wrapped (strip s) max_rows.
Proof.
  intros Sh. unfold _wrap_query_with_limit.
  rewrite (cleaned_of_shape s Sh), (startswith_select_strip s Sh).
  destruct (startswith (L "select") (lower s)); simpl; auto.
  destruct (strip_keeps_shape s Sh) as [Hd _ _ _].
  rewrite lstrip_fixed by (now rewrite lower_no_leading_space).
  rewrite (search_strip "\blimit\b" s) by (auto; reflexivity).
  reflexivity.
Qed.

(** ** Searching the wrapped query *)

Lemma lower_wrapped (t : str) :
  lower (wrapped t DEFAULT_MAX_ROWS)
  = wrap_prefix ++ "(" :: lower t ++ ")" :: wrap_suffix.
Proof.
  unfold wrapped. rewrite !lower_app. reflexivity.
Qed.

Lemma search_wrapped (p : pattern) (t : str) :
  barrier p "(" = true -> barrier p ")" = true ->
  search_from p None (wrap_prefix ++ "(" :: t ++ ")" :: wrap_suffix)
  = search_from p None wrap_prefix
    || (search_from p None t || search_from p None wrap_suffix).
Proof.
  intros B1 B2. now rewrite (search_from_barrier p _ B1), (search_from_barrier p _ B2).
Qed.

Lemma count_wrapped (p : pattern) (t : str) :
  barrier p "(" = true -> barrier p ")" = true ->
  count_from p None (wrap_prefix ++ "(" :: t ++ ")" :: wrap_suffix)
  = count_from p None wrap_prefix
    + (count_from p None t + count_from p None wrap_suffix).
Proof.
  intros B1 B2. now rewrite (count_from_barrier p _ B1), (count_from_barrier p _ B2).
Qed.

(** C1. An accepted [select] statement whose folded text has no LIMIT
    keyword is rewritten to [SELECT * FROM (<cleaned>) AS subquery LIMIT 1000],
    where <cleaned> is the statement without its trailing whitespace; the
    folded output has exactly one LIMIT keyword.  In particular
    [SELECT * FROM tablename] becomes
    [SELECT * FROM (SELECT * FROM tablename) AS subquery LIMIT 1000]. *)
Theorem limiter_wraps_unbounded_select (sql s : str) :
  _validate_sql sql = Returned s ->
  startswith (L "select") (lower s) = true ->
  re_search "\blimit\b" (lower s) = false ->
  _wrap_query_with_limit s DEFAULT_MAX_ROWS
    = L "SELECT * FROM (" ++ strip s ++ L ") AS subquery LIMIT 1000"
  /\ (exists ws, s = strip s ++ ws /\ forallb isspace ws = true)
  /\ re_count "\blimit\b" (lower (_wrap_query_with_limit s DEFAULT_MAX_ROWS)) = 1
  /\ final_sql (L "SELECT * FROM tablename")
     = Returned (L "SELECT * FROM (SELECT * FROM tablename) AS subquery LIMIT 1000").
Proof.
  intros V Sel Lim. pose proof (returned_shape sql s V) as Sh.
  rewrite (wrap_of_accepted s _ Sh), Sel, Lim. cbn [negb].
  split; [reflexivity|]. split; [apply Sh|]. split.
  - rewrite lower_wrapped. unfold re_count.
    rewrite count_wrapped by reflexivity.
    rewrite (count_from_zero _ (lower (strip s))).
    + reflexivity.
    + fold (re_search "\blimit\b" (lower (strip s))).
      rewrite search_strip; auto.
  - vm_compute. reflexivity.
Qed.

Lemma limiter_wraps_unbounded_select_witness :
  _wrap_query_with_limit (L "SELECT name FROM tablename WHERE age > 3 ") DEFAULT_MAX_ROWS
    = L "SELECT * FROM (SELECT name FROM tablename WHERE age > 3) AS subquery LIMIT 1000"
  /\ re_count "\blimit\b"
       (lower (_wrap_query_with_limit
                 (L "SELECT name FROM tablename WHERE age > 3 ") DEFAULT_MAX_ROWS)) = 1.
Proof.
  destruct (limiter_wraps_unbounded_select
              (L "  SELECT name FROM tablename WHERE age > 3 ;  ")
              (L "SELECT name FROM tablename WHERE age > 3 "))
    as [H1 [_ [H3 _]]].
  - vm_compute. reflexivity.
  - vm_compute. reflexivity.
  - vm_compute. reflexivity.
  - split; [exact H1 | exact H3].
Defined.

(** ** Acceptance is insensitive to trailing whitespace *)

Lemma startswith_spaces (v l ws : str) :
  solid (map Lit v) = true -> forallb isspace ws = true ->
  startswith v (l ++ ws) = startswith v l.
Proof.
  intros S A. rewrite !(startswith_match v _ None).
  now apply match_here_spaces.
Qed.

Lemma contains_spaces (sub l ws : str) :
  solid (map Lit sub) = true -> has_lit (map Lit sub) = true ->
  forallb isspace ws = true ->
  contains sub (l ++ ws) = contains sub l.
Proof.
  intros S H A. rewrite !(contains_search sub _ None).
  now apply search_from_spaces.
Qed.

Lemma re_search_spaces (pat : string) (l ws : str) :
  solid (compile (L pat)) = true -> has_lit (compile (L pat)) = true ->
  forallb isspace ws = true ->
  re_search pat (l ++ ws) = re_search pat l.
Proof. intros S H A. unfold re_search. now apply search_from_spaces. Qed.

Lemma re_match_spaces (pat : string) (l ws : str) :
  solid (compile (L pat)) = true -> forallb isspace ws = true ->
  re_match pat (l ++ ws) = re_match pat l.
Proof. intros S A. unfold re_match. now apply match_here_spaces. Qed.

Lemma startswith_app (v l r : str) :
  startswith v l = true -> startswith v (l ++ r) = true.
Proof.
  revert l. induction v as [|c v IH]; intros l; simpl; auto.
  destruct l as [|x l]; simpl; [discriminate|].
  intros H. apply andb_true_iff in H as [-> H]. now apply IH.
Qed.

Lemma forbidden_solid (pat : string) :
  In pat FORBIDDEN_PATTERNS ->
  solid (compile (L pat)) = true /\ has_lit (compile (L pat)) = true.
Proof.
  intros H.
  assert (A : forallb (fun q => solid (compile (L q)) && has_lit (compile (L q)))
                      FORBIDDEN_PATTERNS = true) by (vm_compute; reflexivity).
  rewrite forallb_forall in A. specialize (A pat H).
  now apply andb_true_iff in A.
Qed.

Lemma accepted_text_before_spaces (l ws : str) :
  forallb isspace ws = true -> no_leading_space l = true ->
  accepted_text (l ++ ws) -> accepted_text l.
Proof.
  intros A N [F1 F2 F3 F4 F5 F6 F7 F8 F9 F10].
  constructor.
  - now rewrite contains_spaces in F1.
  - destruct l as [|c r].
    + simpl in F2. unfold lstrip in F2. rewrite lstrip_by_all in F2 by assumption.
      discriminate F2.
    + rewrite lstrip_fixed by assumption.
      rewrite lstrip_fixed in F2 by exact N.
      unfold startswith_any, allowed_verbs in *. cbn [existsb] in *.
      now rewrite !startswith_spaces in F2 by (auto; reflexivity).
  - now rewrite contains_spaces in F3.
  - now rewrite contains_spaces in F4.
  - intros pat Hp. destruct (forbidden_solid pat Hp) as [S H].
    rewrite <- (re_search_spaces pat l ws) by assumption. now apply F5.
  - now rewrite re_search_spaces in F6.
  - rewrite !re_search_spaces in F7 by (auto; reflexivity). exact F7.
  - intros H. rewrite <- (re_match_spaces _ l ws) by (auto; reflexivity).
    apply F8. now apply startswith_app.
  - intros H. rewrite <- (re_match_spaces _ l ws) by (auto; reflexivity).
    apply F9. now apply startswith_app.
  - intros H. rewrite <- (re_match_spaces _ l ws) by (auto; reflexivity).
    apply F10. now apply startswith_app.
Qed.

Lemma accepted_text_strip (s : str) :
  accepted_shape s -> accepted_text (lower s) -> accepted_text (lower (strip s)).
Proof.
  intros Sh A. destruct (strip_keeps_shape s Sh) as [Hd _ _ _].
  destruct Sh as [_ _ _ [ws [E Hws]]].
  apply (accepted_text_before_spaces _ (lower ws)).
  - now rewrite lower_all_space.
  - now rewrite lower_no_leading_space.
  - rewrite <- lower_app, <- E. exact A.
Qed.

(** ** Acceptance of the wrapped query *)

Lemma search_quiet (p : pattern) (t : str) :
  quiet p = true ->
  search_from p None (wrap_prefix ++ "(" :: t ++ ")" :: wrap_suffix)
  = search_from p None t.
Proof.
  unfold quiet. intros Q.
  apply andb_true_iff in Q as [Q Q4]. apply andb_true_iff in Q as [Q Q3].
  apply andb_true_iff in Q as [Q1 Q2].
  apply negb_true_iff in Q3. apply negb_true_iff in Q4.
  rewrite search_wrapped by assumption. rewrite Q3, Q4.
  now rewrite orb_false_r.
Qed.

Lemma contains_quiet (sub t : str) :
  quiet (map Lit sub) = true ->
  contains sub (wrap_prefix ++ "(" :: t ++ ")" :: wrap_suffix) = contains sub t.
Proof.
  intros Q. rewrite !(contains_search sub _ None). now apply search_quiet.
Qed.

Lemma re_search_quiet (pat : string) (t : str) :
  quiet (compile (L pat)) = true ->
  re_search pat (wrap_prefix ++ "(" :: t ++ ")" :: wrap_suffix) = re_search pat t.
Proof. intros Q. unfold re_search. now apply search_quiet. Qed.

Lemma forbidden_quiet (pat : string) :
  In pat FORBIDDEN_PATTERNS -> quiet (compile (L pat)) = true.
Proof.
  intros H.
  assert (A : forallb (fun q => quiet (compile (L q))) FORBIDDEN_PATTERNS = true)
    by (vm_compute; reflexivity).
  rewrite forallb_forall in A. now apply A.
Qed.

Lemma accepted_text_wrapped (l : str) :
  accepted_text l ->
  re_search "\bfrom\s+tablename\b" l = true ->
  accepted_text (wrap_prefix ++ "(" :: l ++ ")" :: wrap_suffix).
Proof.
  intros [F1 F2 F3 F4 F5 F6 F7 F8 F9 F10] FT.
  constructor.
  - now rewrite contains_quiet.
  - reflexivity.
  - now rewrite contains_quiet.
  - now rewrite contains_quiet.
  - intros pat Hp. rewrite re_search_quiet by now apply forbidden_quiet.
    now apply F5.
  - now rewrite re_search_quiet.
  - intros _. now rewrite re_search_quiet.
  - intros H. discriminate H.
  - intros H. discriminate H.
  - intros H. discriminate H.
Qed.

(** ** Validating a text that is already clean *)

Lemma endswith_char_in (c : ascii) (s : str) :
  endswith [c] s = true -> In c s.
Proof.
  unfold endswith. simpl. destruct (rev s) as [|x r] eqn:E; [discriminate|].
  rewrite andb_true_r. intros H. apply Ascii.eqb_eq in H. subst x.
  apply in_rev. rewrite E. now left.
Qed.

Lemma no_semicolon_no_terminator (s : str) :
  contains (L ";") s = false -> endswith (L ";") s = false.
Proof.
  change (L ";") with [";"]. rewrite contains_char. intros H.
  destruct (endswith [";"] s) eqn:E; auto.
  apply endswith_char_in in E. apply H in E. discriminate E.
Qed.

Lemma validate_clean (x : str) :
  strip x = x -> x <> [] -> endswith (L ";") x = false ->
  accepted_text (lower x) ->
  _validate_sql x = Returned x.
Proof.
  intros S N E A. apply validate_returned_iff.
  assert (T : strip_terminator x = x) by (unfold strip_terminator; now rewrite S, E).
  split; [now rewrite S|]. split; [now rewrite T | exact A].
Qed.

Lemma wrapped_last (t : str) :
  wrapped t DEFAULT_MAX_ROWS
  = (L "SELECT * FROM (" ++ t ++ L ") AS subquery LIMIT 100") ++ ["0"].
Proof.
  unfold wrapped. rewrite <- !app_assoc. reflexivity.
Qed.

Lemma wrapped_clean (t : str) :
  strip (wrapped t DEFAULT_MAX_ROWS) = wrapped t DEFAULT_MAX_ROWS
  /\ wrapped t DEFAULT_MAX_ROWS <> []
  /\ endswith (L ";") (wrapped t DEFAULT_MAX_ROWS) = false.
Proof.
  split; [|split].
  - unfold strip. rewrite lstrip_fixed by reflexivity.
    rewrite wrapped_last. now apply rstrip_by_snoc.
  - discriminate.
  - rewrite wrapped_last. unfold endswith. now rewrite rev_app_distr.
Qed.

Lemma validate_wrapped (t : str) :
  accepted_text (lower t) ->
  re_search "\bfrom\s+tablename\b" (lower t) = true ->
  _validate_sql (wrapped t DEFAULT_MAX_ROWS) = Returned (wrapped t DEFAULT_MAX_ROWS).
Proof.
  intros A FT. destruct (wrapped_clean t) as [S [N E]].
  apply validate_clean; auto.
  rewrite lower_wrapped. now apply accepted_text_wrapped.
Qed.

Lemma validate_stripped (sql s : str) :
  _validate_sql sql = Returned s -> _validate_sql (strip s) = Returned (strip s).
Proof.
  intros V. pose proof (returned_shape sql s V) as Sh.
  apply validate_returned_iff in V as [_ [_ A]].
  destruct (strip_keeps_shape s Sh) as [_ Ne Sc _].
  apply validate_clean; auto.
  - apply strip_idem.
  - now apply no_semicolon_no_terminator.
  - now apply accepted_text_strip.
Qed.

(** C2, as the code has it.  Re-validating the Limiter's output of an
    accepted [select] statement succeeds when the statement has a FROM
    keyword or already has a LIMIT keyword; the Validator then returns the
    Limiter's output itself. *)
Theorem revalidation_of_limited_select (sql s : str) :
  _validate_sql sql = Returned s ->
  startswith (L "select") (lower s) = true ->
  re_search "\bfrom\b" (lower s) = true \/ re_search "\blimit\b" (lower s) = true ->
  _validate_sql (_wrap_query_with_limit s DEFAULT_MAX_ROWS)
  = Returned (_wrap_query_with_limit s DEFAULT_MAX_ROWS).
Proof.
  intros V Sel FL. pose proof (returned_shape sql s V) as Sh.
  rewrite (wrap_of_accepted s _ Sh), Sel. cbn [negb].
  destruct (re_search "\blimit\b" (lower s)) eqn:Lim.
  - now apply (validate_stripped sql).
  - destruct FL as [Fr | Fl]; [|discriminate Fl].
    apply validate_returned_iff in V as [_ [_ A]].
    apply validate_wrapped.
    + now apply accepted_text_strip.
    + rewrite search_strip by (auto; reflexivity).
      now apply (from_tablename _ A).
Qed.

Lemma revalidation_of_limited_select_witness :
  _validate_sql (L "SELECT * FROM (SELECT a, b FROM tablename) AS subquery LIMIT 1000")
  = Returned (L "SELECT * FROM (SELECT a, b FROM tablename) AS subquery LIMIT 1000").
Proof.
  apply (revalidation_of_limited_select
           (L " SELECT a, b FROM tablename ; ") (L "SELECT a, b FROM tablename ")).
  - vm_compute. reflexivity.
  - vm_compute. reflexivity.
  - left. vm_compute. reflexivity.
Defined.

(** C2 fails as stated: [SELECT 1] is accepted, and its rewritten form
    has a FROM keyword that is not followed by the table name. *)
Lemma revalidation_fails_without_from :
  _validate_sql (L "SELECT 1") = Returned (L "SELECT 1")
  /\ startswith (L "select") (lower (L "SELECT 1")) = true
  /\ _wrap_query_with_limit (L "SELECT 1") DEFAULT_MAX_ROWS
     = L "SELECT * FROM (SELECT 1) AS subquery LIMIT 1000"
  /\ _validate_sql (L "SELECT * FROM (SELECT 1) AS subquery LIMIT 1000")
     = Raised (bad_request msg_from).
Proof. vm_compute. repeat split; reflexivity. Qed.

(** ** Running the Limiter twice *)

Lemma count_from_all_space (p : pattern) :
  solid p = true -> has_lit p = true ->
  forall ws prev, forallb isspace ws = true -> count_from p prev ws = 0.
Proof.
  intros S HL ws prev A. apply count_from_zero.
  now apply search_from_all_space.
Qed.

Lemma count_from_spaces (p : pattern) :
  solid p = true -> has_lit p = true ->
  forall ws, forallb isspace ws = true ->
  forall s prev, count_from p prev (s ++ ws) = count_from p prev s.
Proof.
  intros S HL ws A. induction s as [|x s IH]; intros prev.
  - simpl app. rewrite count_from_all_space by assumption.
    simpl. now rewrite match_here_lit_nil.
  - pose proof (match_here_spaces p S ws A prev (x :: s)) as M.
    simpl app in *. cbn [count_from]. now rewrite M, IH.
Qed.

Lemma select_strip (s : str) :
  accepted_shape s ->
  startswith (L "select") (lower (strip s)) = startswith (L "select") (lower s).
Proof.
  intros Sh. rewrite <- (startswith_select_strip s Sh).
  destruct (strip_keeps_shape s Sh) as [Hd _ _ _].
  now rewrite lstrip_fixed by (now rewrite lower_no_leading_space).
Qed.

Lemma none_satisfies {A : Type} (f : A -> bool) (l : list A) :
  existsb f l = false -> forall x, In x l -> f x = false.
Proof. apply existsb_false. Qed.

Lemma wrapped_shape (t : str) :
  accepted_shape t -> accepted_shape (wrapped t DEFAULT_MAX_ROWS).
Proof.
  intros [_ _ Sc _]. destruct (wrapped_clean t) as [S [N E]].
  constructor; auto.
  - change (L ";") with [";"] in *. rewrite contains_char in *.
    intros x Hx. unfold wrapped in Hx.
    apply in_app_or in Hx as [Hx | Hx]; [|apply in_app_or in Hx as [Hx | Hx]]; auto.
    + revert x Hx. apply (none_satisfies (fun x => Ascii.eqb x ";")). reflexivity.
    + revert x Hx. apply (none_satisfies (fun x => Ascii.eqb x ";")). reflexivity.
  - exists []. now rewrite S, app_nil_r.
Qed.

Lemma wrapped_has_limit (t : str) :
  re_search "\blimit\b" (lower (wrapped t DEFAULT_MAX_ROWS)) = true.
Proof.
  rewrite lower_wrapped. unfold re_search.
  rewrite search_wrapped by reflexivity.
  change (search_from (compile (L "\blimit\b")) None wrap_suffix) with true.
  now rewrite !orb_true_r.
Qed.

Lemma limiter_idempotent (sql s : str) :
  _validate_sql sql = Returned s ->
  _wrap_query_with_limit (_wrap_query_with_limit s DEFAULT_MAX_ROWS) DEFAULT_MAX_ROWS
  = _wrap_query_with_limit s DEFAULT_MAX_ROWS.
Proof.
  intros V. pose proof (returned_shape sql s V) as Sh.
  pose proof (strip_keeps_shape s Sh) as Sh'.
  rewrite (wrap_of_accepted s _ Sh).
  destruct (startswith (L "select") (lower s)) eqn:Sel; cbn [negb].
  - destruct (re_search "\blimit\b" (lower s)) eqn:Lim.
    + rewrite (wrap_of_accepted _ _ Sh'), select_strip, Sel by assumption.
      cbn [negb]. rewrite search_strip, Lim by (auto; reflexivity).
      apply strip_idem.
    + rewrite (wrap_of_accepted _ _ (wrapped_shape _ Sh')).
      rewrite wrapped_has_limit.
      destruct (negb _); apply (wrapped_clean (strip s)).
  - rewrite (wrap_of_accepted _ _ Sh'), select_strip, Sel by assumption.
    apply strip_idem.
Qed.

(** C3, as the code has it.  An accepted [select] statement that already has
    a LIMIT keyword is returned without its trailing whitespace and otherwise
    unchanged; on every accepted statement a second run of the Limiter
    changes nothing. *)
Theorem limiter_keeps_limited_select (sql s : str) :
  _validate_sql sql = Returned s ->
  (startswith (L "select") (lower s) = true /\
   re_search "\blimit\b" (lower s) = true ->
   _wrap_query_with_limit s DEFAULT_MAX_ROWS = strip s
   /\ exists ws, s = strip s ++ ws /\ forallb isspace ws = true)
  /\ _wrap_query_with_limit (_wrap_query_with_limit s DEFAULT_MAX_ROWS) DEFAULT_MAX_ROWS
     = _wrap_query_with_limit s DEFAULT_MAX_ROWS.
Proof.
  intros V. split; [|now apply (limiter_idempotent sql)].
  intros [Sel Lim]. pose proof (returned_shape sql s V) as Sh.
  rewrite (wrap_of_accepted s _ Sh), Sel, Lim. split; [reflexivity | apply Sh].
Qed.

Lemma limiter_keeps_limited_select_witness :
  _wrap_query_with_limit (L "SELECT * FROM tablename LIMIT 5") DEFAULT_MAX_ROWS
  = L "SELECT * FROM tablename LIMIT 5"
  /\ _wrap_query_with_limit
       (_wrap_query_with_limit (L "SELECT * FROM tablename LIMIT 5") DEFAULT_MAX_ROWS)
       DEFAULT_MAX_ROWS
     = _wrap_query_with_limit (L "SELECT * FROM tablename LIMIT 5") DEFAULT_MAX_ROWS.
Proof.
  destruct (limiter_keeps_limited_select
              (L "SELECT * FROM tablename LIMIT 5")
              (L "SELECT * FROM tablename LIMIT 5")) as [H1 H2].
  - vm_compute. reflexivity.
  - split; [|exact H2]. apply H1. split; vm_compute; reflexivity.
Defined.

(** C3 fails as stated: a statement accepted with whitespace before its
    terminator comes back from the Limiter without that whitespace. *)
Lemma limiter_trims_limited_select :
  _validate_sql (L "SELECT * FROM tablename LIMIT 5 ;")
  = Returned (L "SELECT * FROM tablename LIMIT 5 ")
  /\ startswith (L "select") (lower (L "SELECT * FROM tablename LIMIT 5 ")) = true
  /\ re_search "\blimit\b" (lower (L "SELECT * FROM tablename LIMIT 5 ")) = true
  /\ _wrap_query_with_limit (L "SELECT * FROM tablename LIMIT 5 ") DEFAULT_MAX_ROWS
     = L "SELECT * FROM tablename LIMIT 5"
  /\ _wrap_query_with_limit (L "SELECT * FROM tablename LIMIT 5 ") DEFAULT_MAX_ROWS
     <> L "SELECT * FROM tablename LIMIT 5 ".
Proof. vm_compute. repeat split; try reflexivity. discriminate. Qed.

(** C4, as the code has it.  An accepted statement that does not start with
    [select] is returned without its trailing whitespace and otherwise
    unchanged: nothing is appended and the number of LIMIT keywords is the
    statement's own. *)
Theorem limiter_keeps_write_statement (sql s : str) :
  _validate_sql sql = Returned s ->
  startswith (L "select") (lower s) = false ->
  _wrap_query_with_limit s DEFAULT_MAX_ROWS = strip s
  /\ (exists ws, s = _wrap_query_with_limit s DEFAULT_MAX_ROWS ++ ws
                 /\ forallb isspace ws = true)
  /\ re_count "\blimit\b" (lower (_wrap_query_with_limit s DEFAULT_MAX_ROWS))
     = re_count "\blimit\b" (lower s).
Proof.
  intros V Sel. pose proof (returned_shape sql s V) as Sh.
  rewrite (wrap_of_accepted s _ Sh), Sel. cbn [negb].
  split; [reflexivity|]. split; [apply Sh|].
  destruct Sh as [_ _ _ [ws [E A]]]. rewrite E at 2. rewrite lower_app.
  unfold re_count. symmetry. apply count_from_spaces; try reflexivity.
  now rewrite lower_all_space.
Qed.

Lemma limiter_keeps_write_statement_witness :
  _wrap_query_with_limit (L "UPDATE tablename SET x = 1") DEFAULT_MAX_ROWS
  = L "UPDATE tablename SET x = 1".
Proof.
  destruct (limiter_keeps_write_statement
              (L "UPDATE tablename SET x = 1;") (L "UPDATE tablename SET x = 1"))
    as [H _].
  - vm_compute. reflexivity.
  - vm_compute. reflexivity.
  - exact H.
Defined.

(** C4 fails as stated: an accepted [update] statement with whitespace
    before its terminator comes back without that whitespace. *)
Lemma limiter_trims_write_statement :
  _validate_sql (L "UPDATE tablename SET x = 1 ;")
  = Returned (L "UPDATE tablename SET x = 1 ")
  /\ startswith (L "select") (lower (L "UPDATE tablename SET x = 1 ")) = false
  /\ _wrap_query_with_limit (L "UPDATE tablename SET x = 1 ") DEFAULT_MAX_ROWS
     = L "UPDATE tablename SET x = 1"
  /\ _wrap_query_with_limit (L "UPDATE tablename SET x = 1 ") DEFAULT_MAX_ROWS
     <> L "UPDATE tablename SET x = 1 ".
Proof. vm_compute. repeat split; try reflexivity. discriminate. Qed.

Lemma strip_empty_iff (sql : str) :
  is_empty sql || is_empty (strip sql) = forallb isspace sql.
Proof.
  destruct (forallb isspace sql) eqn:A.
  - rewrite (strip_all_space sql A). apply orb_true_r.
  - apply strip_nonempty. intros Z.
    destruct (strip_split sql) as [pre [post [E [Hpre Hpost]]]].
    rewrite Z in E. simpl in E. rewrite E, forallb_app, Hpre, Hpost in A.
    discriminate A.
Qed.

Lemma validate_first_violation (sql : str) : _validate_sql sql = Validator sql.
Proof.
  unfold Validator, first_violation, check_order, general_rules, _validate_sql.
  cbn [app map find violates reason verb_prefix verb_pattern].
  rewrite strip_empty_iff.
  destruct (forallb isspace sql); [reflexivity|].
  destruct (contains (L ";") _); [reflexivity|].
  destruct (negb (startswith_any _ _)); [reflexivity|].
  destruct (contains (L "/etc/") _ || contains (L "..") _); [reflexivity|].
  destruct (existsb _ FORBIDDEN_PATTERNS); [reflexivity|].
  destruct (re_search "\bjoin\b" _); [reflexivity|].
  destruct (re_search "\bfrom\b" _ && _); [reflexivity|].
  destruct (startswith (L "update ") _ && _); [reflexivity|].
  destruct (startswith (L "delete ") _ && _); [reflexivity|].
  destruct (startswith (L "insert ") _ && _); reflexivity.
Qed.

Lemma reason_injective (r1 r2 : rule) : reason r1 = reason r2 -> r1 = r2.
Proof.
  destruct r1 as [| | | | | | |[]], r2 as [| | | | | | |[]];
    intros H; try reflexivity; cbv in H; discriminate H.
Qed.

(** ** The table checks *)

(** C5: the code at the spec's scenario and at a statement with two FROM
    keywords.  The check asks that some FROM be followed by the table name,
    so a FROM clause on another table is accepted beside one on
    [tablename]. *)
Theorem from_check_accepts_other_table :
  _validate_sql (L "SELECT * FROM other_table") = Raised (bad_request msg_from)
  /\ _validate_sql
       (L "SELECT * FROM other_table WHERE id IN (SELECT id FROM tablename)")
     = Returned
         (L "SELECT * FROM other_table WHERE id IN (SELECT id FROM tablename)").
Proof. vm_compute. split; reflexivity. Qed.

Lemma startswith_exclusive (a b : ascii) (p q l : str) :
  startswith (a :: p) l = true -> Ascii.eqb a b = false ->
  startswith (b :: q) l = false.
Proof.
  destruct l as [|c l]; simpl; auto. intros H N.
  apply andb_true_iff in H as [H _]. apply Ascii.eqb_eq in H. subst c.
  now rewrite N.
Qed.

Lemma find_all_false {A : Type} (f : A -> bool) (l : list A) :
  (forall x, In x l -> f x = false) -> find f l = None.
Proof.
  induction l as [|a l IH]; simpl; auto. intros H.
  rewrite (H a) by now left. apply IH. intros x Hx. apply H. now right.
Qed.

Lemma find_app_none {A : Type} (f : A -> bool) (l m : list A) :
  find f l = None -> find f (l ++ m) = find f m.
Proof.
  induction l as [|a l IH]; simpl; auto. destruct (f a); [discriminate | exact IH].
Qed.

Lemma find_app_some {A : Type} (f : A -> bool) (l m : list A) (x : A) :
  find f l = Some x -> find f (l ++ m) = Some x.
Proof.
  induction l as [|a l IH]; simpl; [discriminate|]. now destruct (f a).
Qed.

Lemma general_rule_first (sql : str) (g : rule) :
  In g general_rules -> violates g sql = true ->
  exists g', In g' general_rules
             /\ _validate_sql sql = Raised (bad_request (reason g')).
Proof.
  intros Hg Vg. rewrite validate_first_violation.
  unfold Validator, first_violation, check_order.
  destruct (find (fun r => violates r sql) general_rules) as [g'|] eqn:F.
  - exists g'. rewrite (find_app_some _ _ _ _ F).
    split; [now apply (find_some _ _ F) | reflexivity].
  - rewrite (List.find_none _ _ F g Hg) in Vg. discriminate Vg.
Qed.

(** C6, as the code has it.  When the folded text begins with a write verb
    followed by a space, an accepted statement names [tablename] as the
    verb's target; a statement that does not is rejected, with the reason of
    its verb when no earlier rule is violated and with the reason of an
    earlier rule otherwise. *)
Theorem verb_binding (sql : str) (v : write_verb) :
  startswith (verb_prefix v) (lower (strip_terminator sql)) = true ->
  (forall s, _validate_sql sql = Returned s ->
             re_match (verb_pattern v) (lower s) = true)
  /\ (re_match (verb_pattern v) (lower (strip_terminator sql)) = false ->
      (exists e, _validate_sql sql = Raised e)
      /\ ((forall g, In g general_rules -> violates g sql = false) ->
          _validate_sql sql = Raised (bad_request (reason (WrongTableForVerb v))))
      /\ (forall g, In g general_rules -> violates g sql = true ->
          exists g', In g' general_rules
                     /\ _validate_sql sql = Raised (bad_request (reason g')))).
Proof.
  intros P. split.
  - intros s V. apply validate_returned_iff in V as [_ [E A]]. subst s.
    destruct v; [apply (update_tablename _ A) | apply (delete_tablename _ A)
                | apply (insert_tablename _ A)]; exact P.
  - intros M.
    assert (Vi : violates (WrongTableForVerb v) sql = true).
    { cbn [violates]. now rewrite P, M. }
    split; [|split; [|apply general_rule_first]].
    + destruct (_validate_sql sql) as [s|e] eqn:V; [|now exists e].
      apply validate_returned_iff in V as [_ [E A]]. subst s.
      destruct v; cbn [verb_pattern verb_prefix] in *;
        [pose proof (update_tablename _ A P) as T
        | pose proof (delete_tablename _ A P) as T
        | pose proof (insert_tablename _ A P) as T]; congruence.
    + intros G. rewrite validate_first_violation.
      unfold Validator, first_violation, check_order.
      rewrite find_app_none by now apply find_all_false.
      destruct v; cbn [map find].
      * now rewrite Vi.
      * assert (U : startswith (L "update ") (lower (strip_terminator sql)) = false)
          by (apply (startswith_exclusive "d" "u" (L "elete ") (L "pdate "));
              [exact P | reflexivity]).
        cbn [violates verb_prefix] in *. rewrite U. cbn [andb]. now rewrite Vi.
      * assert (U : startswith (L "update ") (lower (strip_terminator sql)) = false)
          by (apply (startswith_exclusive "i" "u" (L "nsert ") (L "pdate "));
              [exact P | reflexivity]).
        assert (D : startswith (L "delete ") (lower (strip_terminator sql)) = false)
          by (apply (startswith_exclusive "i" "d" (L "nsert ") (L "elete "));
              [exact P | reflexivity]).
        cbn [violates verb_prefix] in *. rewrite U, D. cbn [andb]. now rewrite Vi.
Qed.

Lemma verb_binding_witness :
  _validate_sql (L "UPDATE other_table SET x = 1")
  = Raised (bad_request msg_update).
Proof.
  destruct (verb_binding (L "UPDATE other_table SET x = 1") Update) as [_ H].
  - vm_compute. reflexivity.
  - destruct H as [_ [H _]]; [vm_compute; reflexivity|]. apply H.
    + intros g Hg. simpl in Hg.
      repeat (destruct Hg as [<- | Hg]; [vm_compute; reflexivity|]).
      destruct Hg.
Defined.

(** C6 fails as stated: a [delete] on another table is rejected by the FROM
    check, which comes first, and not with the reason of its verb. *)
Lemma delete_mismatch_reports_from_reason :
  startswith (L "delete") (lower (L "DELETE FROM other_table")) = true
  /\ re_match "delete\s+from\s+tablename\b" (lower (L "DELETE FROM other_table")) = false
  /\ _validate_sql (L "DELETE FROM other_table") = Raised (bad_request msg_from)
  /\ _validate_sql (L "DELETE FROM other_table") <> Raised (bad_request msg_delete).
Proof. vm_compute. repeat split; try reflexivity. discriminate. Qed.

(** The guard of line 215 asks for a space after the verb: with a newline
    there the target is not checked at all. *)
Example update_after_newline_unchecked :
  _validate_sql (L "UPDATE" ++ [ascii_of_nat 10] ++ L "other_table SET x = 1")
  = Returned (L "UPDATE" ++ [ascii_of_nat 10] ++ L "other_table SET x = 1").
Proof. vm_compute. reflexivity. Qed.

(** ** Re-validation without a table reference *)

Lemma from_tablename_has_from (prev : option ascii) (s : str) :
  match_here (compile (L "\bfrom\s+tablename\b")) prev s = true ->
  match_here (compile (L "\bfrom\b")) prev s = true.
Proof.
  change (compile (L "\bfrom\b"))
    with [WordB; Lit "f"; Lit "r"; Lit "o"; Lit "m"; WordB].
  change (compile (L "\bfrom\s+tablename\b"))
    with ([WordB; Lit "f"; Lit "r"; Lit "o"; Lit "m"; Spaces]
            ++ compile (L "tablename\b")).
  destruct s as [|a [|b [|c [|d [|e s]]]]]; cbn [app match_here spaces_then];
    intros H;
    repeat (apply andb_true_iff in H as [? H]); try discriminate H.
  repeat (apply andb_true_iff; split); auto.
  match goal with D : Ascii.eqb d "m" = true |- _ =>
    apply Ascii.eqb_eq in D; subst d end.
  unfold at_boundary. simpl hd_error. cbn [is_word_opt].
  match goal with E : isspace e = true |- _ =>
    rewrite (isspace_not_word e E) end.
  reflexivity.
Qed.

Lemma search_from_tablename_has_from (s : str) (prev : option ascii) :
  search_from (compile (L "\bfrom\b")) prev s = false ->
  search_from (compile (L "\bfrom\s+tablename\b")) prev s = false.
Proof.
  revert prev. induction s as [|x s IH]; intros prev; cbn [search_from];
    intros H; apply orb_false_iff in H as [M R].
  - destruct (match_here (compile (L "\bfrom\s+tablename\b")) prev []) eqn:T; auto.
    apply from_tablename_has_from in T. congruence.
  - rewrite (IH _ R), orb_false_r.
    destruct (match_here (compile (L "\bfrom\s+tablename\b")) prev (x :: s)) eqn:T; auto.
    apply from_tablename_has_from in T. congruence.
Qed.

Lemma wrapped_rejected_without_table (t : str) :
  accepted_text (lower t) ->
  re_search "\bfrom\s+tablename\b" (lower t) = false ->
  _validate_sql (wrapped t DEFAULT_MAX_ROWS) = Raised (bad_request msg_from).
Proof.
  intros [F1 F2 F3 F4 F5 F6 _ _ _ _] FT.
  destruct (wrapped_clean t) as [S [N E]].
  assert (T : strip_terminator (wrapped t DEFAULT_MAX_ROWS) = wrapped t DEFAULT_MAX_ROWS)
    by (unfold strip_terminator; now rewrite S, E).
  rewrite validate_first_violation. unfold Validator, first_violation.
  change check_order
    with ([EmptyQuery; MultipleStatements; VerbNotAllowed; FilesystemAccess;
           DisallowedConstruct; JoinNotAllowed]
            ++ WrongTable :: map WrongTableForVerb [Update; Delete; Insert]).
  rewrite find_app_none.
  - cbn [find violates]. rewrite T, lower_wrapped.
    rewrite (re_search_quiet "\bfrom\s+tablename\b") by reflexivity.
    rewrite FT. unfold re_search at 1. rewrite search_wrapped by reflexivity.
    reflexivity.
  - apply find_all_false. intros g Hg. cbn [In] in Hg.
    destruct Hg as [<- | [<- | [<- | [<- | [<- | [<- | []]]]]]]; cbn [violates];
      try rewrite T, lower_wrapped.
    + rewrite <- strip_empty_iff. apply strip_nonempty. now rewrite S.
    + now rewrite contains_quiet.
    + reflexivity.
    + now rewrite !contains_quiet, F3, F4.
    + apply existsb_false. intros pat Hp.
      rewrite re_search_quiet by now apply forbidden_quiet. now apply F5.
    + now rewrite re_search_quiet.
Qed.

(** The condition under which re-validation succeeds is the exact one:
    without FROM and without LIMIT the rewritten statement is rejected by
    the FROM check. *)
Lemma revalidation_needs_from_or_limit (sql s : str) :
  _validate_sql sql = Returned s ->
  startswith (L "select") (lower s) = true ->
  re_search "\bfrom\b" (lower s) = false ->
  re_search "\blimit\b" (lower s) = false ->
  _validate_sql (_wrap_query_with_limit s DEFAULT_MAX_ROWS)
  = Raised (bad_request msg_from).
Proof.
  intros V Sel Fr Lim. pose proof (returned_shape sql s V) as Sh.
  rewrite (wrap_of_accepted s _ Sh), Sel, Lim. cbn [negb].
  apply validate_returned_iff in V as [_ [_ A]].
  apply wrapped_rejected_without_table.
  - now apply accepted_text_strip.
  - rewrite search_strip by (auto; reflexivity).
    now apply search_from_tablename_has_from.
Qed.

(** ** Order of the checks and rejections *)

Lemma find_first {A : Type} (f : A -> bool) (l : list A) (r : A) :
  find f l = Some r ->
  exists before after,
    l = before ++ r :: after /\ f r = true
    /\ forall x, In x before -> f x = false.
Proof.
  induction l as [|a l IH]; simpl; [discriminate|].
  destruct (f a) eqn:Fa.
  - intros H. injection H as <-. exists [], l.
    split; [reflexivity|]. split; [exact Fa|]. intros x [].
  - intros H. destruct (IH H) as [before [after [E [Fr Hb]]]].
    exists (a :: before), after. repeat split; auto.
    + simpl. now rewrite E.
    + intros x [<- | Hx]; auto.
Qed.

Lemma separator_rejected (sql : str) :
  contains (L ";") (lower (strip_terminator sql)) = true ->
  _validate_sql sql = Raised (bad_request msg_multiple).
Proof.
  intros H. unfold _validate_sql.
  destruct (is_empty sql || is_empty (strip sql)) eqn:E.
  - rewrite strip_empty_iff in E.
    unfold strip_terminator in H. rewrite (strip_all_space sql E) in H.
    discriminate H.
  - now rewrite H.
Qed.

(** C7. The Validator is the ordered chain of rules with short-circuit: a
    rejection carries the reason of the first violated rule in the order
    empty, separator, verb, filesystem, forbidden construct, JOIN, FROM
    table, verb-specific table.  A separator left after removal of one
    trailing terminator rejects with the multiple-statements reason whatever
    else the statement contains, as for
    [UPDATE tablename SET x=1; DELETE FROM tablename]. *)
Theorem checks_in_order (sql : str) :
  _validate_sql sql = Validator sql
  /\ (forall e, _validate_sql sql = Raised e ->
        exists r before after,
          check_order = before ++ r :: after
          /\ violates r sql = true
          /\ (forall x, In x before -> violates x sql = false)
          /\ e = bad_request (reason r))
  /\ (contains (L ";") (lower (strip_terminator sql)) = true ->
      _validate_sql sql = Raised (bad_request msg_multiple))
  /\ _validate_sql (L "UPDATE tablename SET x=1; DELETE FROM tablename")
     = Raised (bad_request msg_multiple).
Proof.
  split; [apply validate_first_violation|]. split; [|split].
  - intros e. rewrite validate_first_violation. unfold Validator.
    destruct (first_violation sql) as [r|] eqn:F; [|discriminate].
    intros H. injection H as <-.
    destruct (find_first _ _ _ F) as [before [after [E [V B]]]].
    exists r, before, after. auto.
  - apply separator_rejected.
  - vm_compute. reflexivity.
Qed.

Lemma checks_in_order_witness :
  _validate_sql (L "SELECT * FROM other; DROP TABLE tablename")
  = Raised (bad_request msg_multiple).
Proof.
  destruct (checks_in_order (L "SELECT * FROM other; DROP TABLE tablename"))
    as [_ [_ [H _]]].
  apply H. vm_compute. reflexivity.
Defined.

(** C8. Empty and whitespace-only input is rejected with the empty-query
    reason.  Every rejection has status 400, and its reason is the reason
    of the first violated rule; different rules have different reasons. *)
Theorem rejections_are_caller_faults (sql : str) :
  (forallb isspace sql = true ->
   _validate_sql sql = Raised (bad_request msg_empty))
  /\ (forall e, _validate_sql sql = Raised e ->
        status_code e = 400%Z
        /\ exists r, first_violation sql = Some r
                     /\ violates r sql = true
                     /\ detail e = reason r)
  /\ (forall r1 r2, reason r1 = reason r2 -> r1 = r2).
Proof.
  split; [|split].
  - intros A. unfold _validate_sql. now rewrite strip_empty_iff, A.
  - intros e. rewrite validate_first_violation. unfold Validator.
    destruct (first_violation sql) as [r|] eqn:F; [|discriminate].
    intros H. injection H as <-. split; [reflexivity|].
    exists r. destruct (find_first _ _ _ F) as [_ [_ [_ [V _]]]]. auto.
  - apply reason_injective.
Qed.

Lemma rejections_are_caller_faults_witness :
  _validate_sql (L "   ") = Raised (bad_request msg_empty)
  /\ status_code (bad_request msg_join) = 400%Z.
Proof.
  split.
  - destruct (rejections_are_caller_faults (L "   ")) as [H _].
    apply H. reflexivity.
  - destruct (rejections_are_caller_faults
                (L "SELECT * FROM tablename JOIN other ON 1=1")) as [_ [H _]].
    apply H. vm_compute. reflexivity.
Defined.

(** ** The returned text *)

Lemma endswith_char_split (c : ascii) (x : str) :
  endswith [c] x = true -> x = removelast x ++ [c].
Proof.
  unfold endswith. simpl. destruct (rev x) as [|y r] eqn:E; [discriminate|].
  rewrite andb_true_r. intros H. apply Ascii.eqb_eq in H. subst y.
  apply (f_equal (@rev ascii)) in E. rewrite rev_involutive in E. simpl in E.
  rewrite E. now rewrite removelast_last.
Qed.

(** C9. An accepted input is returned with its surrounding whitespace
    trimmed and at most one trailing semicolon removed; the characters in
    between are the input's own, in their original case. *)
Theorem validator_returns_trimmed_input (sql s : str) :
  _validate_sql sql = Returned s ->
  (strip sql = s \/ strip sql = s ++ L ";")
  /\ exists before terminator after,
       sql = before ++ s ++ terminator ++ after
       /\ forallb isspace before = true
       /\ forallb isspace after = true
       /\ (terminator = [] \/ terminator = L ";").
Proof.
  intros V. apply validate_returned_iff in V as [_ [E _]].
  assert (T : strip sql = s \/ strip sql = s ++ L ";").
  { subst s. unfold strip_terminator.
    destruct (endswith (L ";") (strip sql)) eqn:W; [right | now left].
    now apply endswith_char_split. }
  split; [exact T|].
  destruct (strip_split sql) as [pre [post [D [Hpre Hpost]]]].
  destruct T as [T | T]; rewrite T in D.
  - exists pre, [], post. auto.
  - exists pre, (L ";"), post. rewrite <- app_assoc in D. auto.
Qed.

Lemma validator_returns_trimmed_input_witness :
  strip (L "  Select Name From TableName ;  ") = L "Select Name From TableName "
  \/ strip (L "  Select Name From TableName ;  ") = L "Select Name From TableName " ++ L ";".
Proof.
  destruct (validator_returns_trimmed_input
              (L "  Select Name From TableName ;  ")
              (L "Select Name From TableName ")) as [H _].
  - vm_compute. reflexivity.
  - exact H.
Defined.

(** C10. An accepted statement has no semicolon at any position. *)
Theorem accepted_has_no_semicolon (sql s : str) :
  _validate_sql sql = Returned s ->
  contains (L ";") s = false /\ ~ In ";" s.
Proof.
  intros V. destruct (returned_shape sql s V) as [_ _ Sc _].
  split; [exact Sc|].
  change (L ";") with [";"] in Sc. rewrite contains_char in Sc.
  intros H. apply Sc in H. discriminate H.
Qed.

Lemma accepted_has_no_semicolon_witness :
  contains (L ";") (L "DELETE FROM tablename WHERE id = 7") = false
  /\ ~ In ";" (L "DELETE FROM tablename WHERE id = 7").
Proof.
  apply (accepted_has_no_semicolon (L "DELETE FROM tablename WHERE id = 7;")).
  vm_compute. reflexivity.
Defined.

(** ** What reaches the engine *)

Lemma final_sql_returned (body q : str) :
  final_sql body = Returned q ->
  exists s, _validate_sql body = Returned s
            /\ q = _wrap_query_with_limit s DEFAULT_MAX_ROWS.
Proof.
  unfold final_sql, bind. destruct (_validate_sql body) as [s|e]; [|discriminate].
  intros H. injection H as <-. now exists s.
Qed.

Lemma safe_statement_intro (q : str) :
  contains (L ";") q = false ->
  startswith_any allowed_verbs (lower q) = true ->
  contains (L "/etc/") (lower q) = false ->
  contains (L "..") (lower q) = false ->
  (forall pat, In pat FORBIDDEN_PATTERNS -> re_search pat (lower q) = false) ->
  re_search "\bjoin\b" (lower q) = false ->
  safe_statement q = true.
Proof.
  intros H1 H2 H3 H4 H5 H6. unfold safe_statement.
  rewrite H1, H2, H3, H4, H6, (proj2 (existsb_false _ _) H5). reflexivity.
Qed.

Lemma safe_stripped (s : str) :
  accepted_shape s -> accepted_text (lower s) -> safe_statement (strip s) = true.
Proof.
  intros Sh A. pose proof (accepted_text_strip s Sh A) as [F1 F2 F3 F4 F5 F6 _ _ _ _].
  destruct (strip_keeps_shape s Sh) as [Hd _ Sc _].
  apply safe_statement_intro; auto.
  now rewrite lstrip_fixed in F2 by (now rewrite lower_no_leading_space).
Qed.

Lemma safe_wrapped (t : str) :
  accepted_shape t -> accepted_text (lower t) ->
  safe_statement (wrapped t DEFAULT_MAX_ROWS) = true.
Proof.
  intros Sh [F1 F2 F3 F4 F5 F6 _ _ _ _].
  destruct (wrapped_shape t Sh) as [_ _ Sc _].
  apply safe_statement_intro; [exact Sc | rewrite lower_wrapped ..].
  - reflexivity.
  - now rewrite contains_quiet.
  - now rewrite contains_quiet.
  - intros pat Hp. rewrite re_search_quiet by now apply forbidden_quiet.
    now apply F5.
  - now rewrite re_search_quiet.
Qed.

Lemma limited_statement_safe (sql s : str) :
  _validate_sql sql = Returned s ->
  safe_statement (_wrap_query_with_limit s DEFAULT_MAX_ROWS) = true.
Proof.
  intros V. pose proof (returned_shape sql s V) as Sh.
  apply validate_returned_iff in V as [_ [_ A]].
  rewrite (wrap_of_accepted s _ Sh).
  destruct (negb (startswith (L "select") (lower s))); [now apply safe_stripped|].
  destruct (re_search "\blimit\b" (lower s)); [now apply safe_stripped|].
  apply safe_wrapped.
  - now apply strip_keeps_shape.
  - now apply accepted_text_strip.
Qed.

(** X1. Whatever statement the first two steps of [run_query] hand on has
    passed the Limiter with the Validator's guarantees intact: it has no
    semicolon, its folded text begins with an allowed verb and contains
    neither [/etc/], [..], a forbidden keyword nor JOIN. *)
Theorem engine_input_is_safe (body q : str) :
  final_sql body = Returned q -> safe_statement q = true.
Proof.
  intros H. destruct (final_sql_returned body q H) as [s [V ->]].
  now apply (limited_statement_safe body).
Qed.

Lemma engine_input_is_safe_witness :
  safe_statement
    (L "SELECT * FROM (select Name from tablename where Age > 30) AS subquery LIMIT 1000")
  = true.
Proof.
  apply (engine_input_is_safe (L "  select Name from tablename where Age > 30 ; ")).
  vm_compute. reflexivity.
Defined.

(** X2. Every statement handed on whose folded text begins with [select]
    has a LIMIT keyword: the caller's own or the one the Limiter adds. *)
Theorem select_reaches_engine_bounded (body q : str) :
  final_sql body = Returned q ->
  startswith (L "select") (lower q) = true ->
  re_search "\blimit\b" (lower q) = true.
Proof.
  intros H. destruct (final_sql_returned body q H) as [s [V ->]].
  pose proof (returned_shape body s V) as Sh.
  rewrite (wrap_of_accepted s _ Sh).
  destruct (startswith (L "select") (lower s)) eqn:Sel; cbn [negb].
  - destruct (re_search "\blimit\b" (lower s)) eqn:Lim.
    + intros _. now rewrite search_strip by (auto; reflexivity).
    + intros _. apply wrapped_has_limit.
  - rewrite select_strip, Sel by assumption. discriminate.
Qed.

Lemma select_reaches_engine_bounded_witness :
  re_search "\blimit\b"
    (lower (L "SELECT * FROM (Select count(*) From tablename) AS subquery LIMIT 1000"))
  = true.
Proof.
  apply (select_reaches_engine_bounded (L "Select count(*) From tablename")).
  - vm_compute. reflexivity.
  - vm_compute. reflexivity.
Defined.

(** X3. The Validator accepts its own output: validating an accepted
    statement again returns it without its trailing whitespace, and that
    text is returned unchanged by every further validation. *)
Theorem validator_accepts_own_output (sql s : str) :
  _validate_sql sql = Returned s ->
  _validate_sql s = Returned (strip s)
  /\ _validate_sql (strip s) = Returned (strip s).
Proof.
  intros V. split; [|now apply (validate_stripped sql)].
  pose proof (returned_shape sql s V) as Sh.
  destruct (strip_keeps_shape s Sh) as [_ Ne Sc _].
  apply validate_returned_iff in V as [_ [_ A]].
  apply validate_returned_iff. split; [exact Ne|].
  unfold strip_terminator. rewrite (no_semicolon_no_terminator _ Sc).
  split; [reflexivity | now apply accepted_text_strip].
Qed.

Lemma validator_accepts_own_output_witness :
  _validate_sql (L "DELETE FROM tablename WHERE id = 3 ")
  = Returned (L "DELETE FROM tablename WHERE id = 3").
Proof.
  destruct (validator_accepts_own_output
              (L " DELETE FROM tablename WHERE id = 3 ;")
              (L "DELETE FROM tablename WHERE id = 3 ")) as [H _].
  - vm_compute. reflexivity.
  - exact H.
Defined.

(** ** Letter case and surrounding whitespace *)

Lemma lower_char_idem (c : ascii) : lower_char (lower_char c) = lower_char c.
Proof. all_chars c. Qed.

Lemma lower_idem (x : str) : lower (lower x) = lower x.
Proof.
  unfold lower. rewrite map_map. apply map_ext. apply lower_char_idem.
Qed.

Lemma lstrip_lower (x : str) : lstrip (lower x) = lower (lstrip x).
Proof.
  unfold lstrip. induction x as [|c x IH]; simpl; auto.
  rewrite isspace_lower. now destruct (isspace c).
Qed.

Lemma strip_lower (x : str) : strip (lower x) = lower (strip x).
Proof.
  unfold strip, rstrip, rstrip_by. rewrite lstrip_lower.
  unfold lower. rewrite <- map_rev.
  fold (lower (rev (lstrip x))). fold (lstrip (lower (rev (lstrip x)))).
  rewrite lstrip_lower. unfold lower. now rewrite map_rev.
Qed.

Lemma endswith_semicolon_lower (x : str) :
  endswith (L ";") (lower x) = endswith (L ";") x.
Proof.
  unfold endswith, lower. rewrite <- map_rev.
  destruct (rev x) as [|c r]; simpl; auto. now rewrite lower_semicolon.
Qed.

Lemma removelast_lower (x : str) : removelast (lower x) = lower (removelast x).
Proof.
  induction x as [|c x IH]; simpl; auto.
  destruct x as [|d x]; simpl in *; auto. now rewrite IH.
Qed.

Lemma strip_terminator_lower (x : str) :
  strip_terminator (lower x) = lower (strip_terminator x).
Proof.
  unfold strip_terminator. rewrite strip_lower, endswith_semicolon_lower.
  destruct (endswith (L ";") (strip x)); auto. apply removelast_lower.
Qed.

Lemma folded_text_of_lower (x : str) :
  lower (strip_terminator x) = lower (strip_terminator (lower x)).
Proof. now rewrite strip_terminator_lower, lower_idem. Qed.

Lemma violates_of_lower (r : rule) (x : str) :
  violates r x = violates r (lower x).
Proof.
  destruct r; cbn [violates]; rewrite <- ?folded_text_of_lower; auto.
  symmetry. apply lower_all_space.
Qed.

Lemma find_pointwise {A : Type} (f g : A -> bool) (l : list A) :
  (forall x, f x = g x) -> find f l = find g l.
Proof.
  intros E. induction l as [|a l IH]; simpl; auto. now rewrite E, IH.
Qed.

Lemma first_violation_of_lower (x y : str) :
  lower x = lower y -> first_violation x = first_violation y.
Proof.
  intros E. unfold first_violation. apply find_pointwise. intros r.
  now rewrite (violates_of_lower r x), (violates_of_lower r y), E.
Qed.

(** X4. The verdict of the Validator does not depend on letter case: two
    inputs with the same folded text are rejected with the same exception,
    or are both accepted, with returned texts that differ in case only. *)
Theorem validator_case_insensitive (sql1 sql2 : str) :
  lower sql1 = lower sql2 ->
  (forall e, _validate_sql sql1 = Raised e <-> _validate_sql sql2 = Raised e)
  /\ (forall s1, _validate_sql sql1 = Returned s1 ->
        exists s2, _validate_sql sql2 = Returned s2 /\ lower s2 = lower s1).
Proof.
  intros E. rewrite !validate_first_violation. unfold Validator.
  rewrite (first_violation_of_lower sql1 sql2 E).
  destruct (first_violation sql2) as [r|].
  - split; [tauto | discriminate].
  - split; [split; discriminate|].
    intros s1 H. injection H as <-. exists (strip_terminator sql2).
    split; [reflexivity|].
    now rewrite (folded_text_of_lower sql2), (folded_text_of_lower sql1), E.
Qed.

Lemma validator_case_insensitive_witness :
  exists s2, _validate_sql (L "select NAME from TableName;") = Returned s2
             /\ lower s2 = lower (L "SELECT name FROM tablename").
Proof.
  destruct (validator_case_insensitive
              (L "SELECT name FROM tablename;") (L "select NAME from TableName;"))
    as [_ H].
  - vm_compute. reflexivity.
  - apply H. vm_compute. reflexivity.
Defined.

Lemma lstrip_by_app_all (f : ascii -> bool) (a y : str) :
  forallb f a = true -> lstrip_by f (a ++ y) = lstrip_by f y.
Proof.
  induction a as [|c a IH]; simpl; auto. intros H.
  apply andb_true_iff in H as [Fc H]. rewrite Fc. now apply IH.
Qed.

Lemma rstrip_by_app_all (f : ascii -> bool) (y b : str) :
  forallb f b = true -> rstrip_by f (y ++ b) = rstrip_by f y.
Proof.
  intros H. unfold rstrip_by. rewrite rev_app_distr, lstrip_by_app_all; auto.
  rewrite forallb_forall in *. intros x Hx. apply H. now apply in_rev.
Qed.

Lemma strip_outer (a x b : str) :
  forallb isspace a = true -> forallb isspace b = true ->
  strip (a ++ x ++ b) = strip x.
Proof.
  intros Ha Hb. unfold strip, lstrip, rstrip.
  rewrite lstrip_by_app_all by assumption.
  induction x as [|c x IH]; simpl.
  - now rewrite lstrip_by_all.
  - destruct (isspace c); auto.
    change (c :: x ++ b) with ((c :: x) ++ b). now apply rstrip_by_app_all.
Qed.

(** X5. Whitespace around the input does not change the result of the
    Validator. *)
Theorem validator_ignores_outer_whitespace (a sql b : str) :
  forallb isspace a = true -> forallb isspace b = true ->
  _validate_sql (a ++ sql ++ b) = _validate_sql sql.
Proof.
  intros Ha Hb.
  assert (T : strip_terminator (a ++ sql ++ b) = strip_terminator sql)
    by (unfold strip_terminator; now rewrite strip_outer).
  unfold _validate_sql. rewrite T, !strip_empty_iff.
  now rewrite !forallb_app, Ha, Hb, andb_true_r.
Qed.

Lemma validator_ignores_outer_whitespace_witness :
  _validate_sql (L "  " ++ L "SELECT * FROM tablename;" ++ L "   ")
  = _validate_sql (L "SELECT * FROM tablename;").
Proof.
  apply validator_ignores_outer_whitespace; reflexivity.
Defined.

(** X6. Whitespace around the input does not change the result of the
    Limiter, whatever the row cap. *)
Theorem limiter_ignores_outer_whitespace (a sql b : str) (max_rows : Z) :
  forallb isspace a = true -> forallb isspace b = true ->
  _wrap_query_with_limit (a ++ sql ++ b) max_rows
  = _wrap_query_with_limit sql max_rows.
Proof.
  intros Ha Hb. unfold _wrap_query_with_limit. now rewrite strip_outer.
Qed.

Lemma limiter_ignores_outer_whitespace_witness :
  _wrap_query_with_limit (L " " ++ L "select 1" ++ L "  ") 7
  = _wrap_query_with_limit (L "select 1") 7.
Proof.
  apply limiter_ignores_outer_whitespace; reflexivity.
Defined.

(** ** The row cap as text *)

Lemma uint_numeral_chars (d : Decimal.uint) :
  forallb is_numeral_char (L (NilEmpty.string_of_uint d)) = true.
Proof. induction d; simpl; auto. Qed.

Lemma format_int_chars (n : Z) : forallb is_numeral_char (format_int n) = true.
Proof.
  unfold format_int. destruct (Z.to_int n) as [d|d]; simpl.
  - destruct d; try reflexivity; apply (uint_numeral_chars (_ d)).
  - destruct d; try reflexivity; apply (uint_numeral_chars (_ d)).
Qed.

Lemma format_int_nonempty (n : Z) : format_int n <> [].
Proof.
  unfold format_int. destruct (Z.to_int n) as [d|d]; simpl.
  - destruct d; discriminate.
  - discriminate.
Qed.

Lemma numeral_char_plain (c : ascii) :
  is_numeral_char c = true ->
  isspace c = false /\ Ascii.eqb c ";" = false /\ Ascii.eqb c "l" = false
  /\ lower_char c = c.
Proof.
  destruct c as [[|] [|] [|] [|] [|] [|] [|] [|]]; vm_compute; intros H;
    try discriminate H; repeat split; reflexivity.
Qed.

Lemma format_int_last (n : Z) :
  exists init c, format_int n = init ++ [c] /\ is_numeral_char c = true.
Proof.
  destruct (exists_last (format_int_nonempty n)) as [init [c E]].
  exists init, c. split; [exact E|].
  pose proof (format_int_chars n) as A. rewrite E, forallb_app in A.
  apply andb_true_iff in A as [_ A]. simpl in A. now rewrite andb_true_r in A.
Qed.

Lemma lower_numerals (x : str) :
  forallb is_numeral_char x = true -> lower x = x.
Proof.
  induction x as [|c x IH]; simpl; auto. intros H.
  apply andb_true_iff in H as [Hc H].
  destruct (numeral_char_plain c Hc) as [_ [_ [_ E]]]. now rewrite E, IH.
Qed.

Lemma to_int_not_nil (n : Z) : Z.to_int n <> Decimal.Pos Decimal.Nil
                               /\ Z.to_int n <> Decimal.Neg Decimal.Nil.
Proof.
  destruct n as [|p|p]; simpl; split; try discriminate;
    intros H; injection H as H; revert H; apply DecimalPos.Unsigned.to_uint_nonnil.
Qed.

Lemma decimal_value_format_int (n : Z) : decimal_value (format_int n) = Some n.
Proof.
  unfold decimal_value, format_int, L.
  rewrite string_of_list_ascii_of_string.
  destruct (to_int_not_nil n) as [P Q].
  rewrite NilZero.isi by assumption. simpl. now rewrite DecimalZ.of_to.
Qed.

(** ** The Limiter on any input and any row cap *)

Lemma lstrip_by_head (f : ascii -> bool) (s r : str) (c : ascii) :
  lstrip_by f s = c :: r -> f c = false.
Proof.
  induction s as [|x s IH]; simpl; [discriminate|].
  destruct (f x) eqn:Fx; auto. intros H. injection H as <- _. exact Fx.
Qed.

Lemma rstrip_by_last (f : ascii -> bool) (s : str) (c : ascii) :
  endswith [c] (rstrip_by f s) = true -> f c = false.
Proof.
  unfold endswith, rstrip_by. rewrite rev_involutive. simpl.
  destruct (lstrip_by f (rev s)) as [|x r] eqn:E; [discriminate|].
  rewrite andb_true_r. intros H. apply Ascii.eqb_eq in H. subst x.
  now apply (lstrip_by_head f (rev s) r).
Qed.

Lemma rstrip_by_keeps_head (f : ascii -> bool) (s : str) :
  no_leading_space s = true -> no_leading_space (rstrip_by f s) = true.
Proof.
  destruct (rstrip_by_split f s) as [post [E _]].
  destruct (rstrip_by f s) as [|c r]; auto.
  rewrite E. simpl. auto.
Qed.

Lemma cleaned_shape (sql : str) :
  no_leading_space (rstrip_chars (L ";") (strip sql)) = true
  /\ endswith (L ";") (rstrip_chars (L ";") (strip sql)) = false.
Proof.
  split.
  - apply rstrip_by_keeps_head, strip_no_leading_space.
  - destruct (endswith (L ";") _) eqn:E; auto.
    apply rstrip_by_last in E. discriminate E.
Qed.

Lemma wrapped_last_char (t : str) (max_rows : Z) :
  exists init c, wrapped t max_rows = init ++ [c] /\ is_numeral_char c = true.
Proof.
  destruct (format_int_last max_rows) as [init [c [E N]]].
  exists (L "SELECT * FROM (" ++ t ++ L ") AS subquery LIMIT " ++ init), c.
  split; [|exact N]. unfold wrapped. rewrite E. now rewrite <- !app_assoc.
Qed.

Lemma wrapped_clean_any (t : str) (max_rows : Z) :
  strip (wrapped t max_rows) = wrapped t max_rows
  /\ endswith (L ";") (wrapped t max_rows) = false
  /\ rstrip_chars (L ";") (wrapped t max_rows) = wrapped t max_rows.
Proof.
  destruct (wrapped_last_char t max_rows) as [init [c [E N]]].
  destruct (numeral_char_plain c N) as [Sp [Se _]].
  split; [|split].
  - unfold strip. rewrite lstrip_fixed by reflexivity.
    rewrite E. now apply rstrip_by_snoc.
  - rewrite E. unfold endswith. rewrite rev_app_distr. simpl. now rewrite Se.
  - rewrite E. unfold rstrip_chars. apply rstrip_by_snoc. simpl. now rewrite Se.
Qed.

(** X7. Whatever the input and the row cap, the text the Limiter returns
    neither starts with whitespace nor ends with a semicolon. *)
Theorem limiter_output_shape (sql : str) (max_rows : Z) :
  no_leading_space (_wrap_query_with_limit sql max_rows) = true
  /\ endswith (L ";") (_wrap_query_with_limit sql max_rows) = false.
Proof.
  unfold _wrap_query_with_limit.
  destruct (negb _); [apply cleaned_shape|].
  destruct (re_search _ _); [apply cleaned_shape|].
  split; [reflexivity|].
  apply (wrapped_clean_any (rstrip_chars (L ";") (strip sql)) max_rows).
Qed.

Lemma lower_wrapped_any (t : str) (max_rows : Z) :
  lower (wrapped t max_rows)
  = wrap_prefix ++ "(" :: lower t
      ++ ")" :: L " as subquery limit " ++ format_int max_rows.
Proof.
  unfold wrapped. rewrite !lower_app.
  rewrite (lower_numerals _ (format_int_chars max_rows)). reflexivity.
Qed.

Lemma limit_in_suffix (x : str) :
  search_from (compile (L "\blimit\b")) None (L " as subquery limit " ++ x) = true.
Proof. reflexivity. Qed.

Lemma wrapped_has_limit_any (t : str) (max_rows : Z) :
  re_search "\blimit\b" (lower (wrapped t max_rows)) = true.
Proof.
  rewrite lower_wrapped_any. unfold re_search.
  rewrite (search_from_barrier _ "(") by reflexivity.
  rewrite (search_from_barrier _ ")") by reflexivity.
  rewrite limit_in_suffix. now rewrite !orb_true_r.
Qed.

Lemma wrap_without_semicolon (sql : str) (max_rows : Z) :
  contains (L ";") sql = false ->
  _wrap_query_with_limit sql max_rows =
  if negb (startswith (L "select") (lower (strip sql))) then strip sql
  else if re_search "\blimit\b" (lower (strip sql)) then strip sql
  else wrapped (strip sql) max_rows.
Proof.
  intros Sc. unfold _wrap_query_with_limit.
  assert (C : rstrip_chars (L ";") (strip sql) = strip sql).
  { unfold rstrip_chars. apply rstrip_by_none. intros c Hc.
    change (L ";") with [";"] in Sc. rewrite contains_char in Sc.
    simpl. now rewrite (Sc c (in_strip c sql Hc)). }
  rewrite C, lstrip_fixed; [reflexivity|].
  rewrite lower_no_leading_space. apply strip_no_leading_space.
Qed.

Lemma strip_no_semicolon (sql : str) :
  contains (L ";") sql = false -> contains (L ";") (strip sql) = false.
Proof.
  change (L ";") with [";"]. rewrite !contains_char.
  intros H x Hx. apply H. now apply in_strip.
Qed.

(** X8. On every text without semicolon, validated or not, and for every
    row cap, running the Limiter on its own output changes nothing. *)
Theorem limiter_idempotent_without_semicolon (sql : str) (max_rows : Z) :
  contains (L ";") sql = false ->
  _wrap_query_with_limit (_wrap_query_with_limit sql max_rows) max_rows
  = _wrap_query_with_limit sql max_rows.
Proof.
  intros Sc. rewrite (wrap_without_semicolon sql max_rows Sc).
  pose proof (strip_no_semicolon sql Sc) as Sc'.
  destruct (startswith (L "select") (lower (strip sql))) eqn:Sel; cbn [negb].
  - destruct (re_search "\blimit\b" (lower (strip sql))) eqn:Lim.
    + rewrite (wrap_without_semicolon _ _ Sc'), strip_idem, Sel, Lim. reflexivity.
    + destruct (wrapped_clean_any (strip sql) max_rows) as [S [_ R]].
      unfold _wrap_query_with_limit. rewrite S, R.
      rewrite lstrip_fixed by (rewrite lower_wrapped_any; reflexivity).
      rewrite wrapped_has_limit_any.
      now destruct (negb _).
  - rewrite (wrap_without_semicolon _ _ Sc'), strip_idem, Sel. reflexivity.
Qed.

Lemma limiter_idempotent_without_semicolon_witness :
  _wrap_query_with_limit
    (_wrap_query_with_limit (L "  select a from t order by a ") 25) 25
  = _wrap_query_with_limit (L "  select a from t order by a ") 25.
Proof.
  apply limiter_idempotent_without_semicolon. vm_compute. reflexivity.
Defined.

Lemma count_limit_in_numerals (x : str) (prev : option ascii) :
  forallb is_numeral_char x = true ->
  count_from (compile (L "\blimit\b")) prev x = 0.
Proof.
  change (compile (L "\blimit\b"))
    with (WordB :: Lit "l" :: compile (L "imit\b")).
  revert prev. induction x as [|c x IH]; intros prev H.
  - simpl. now rewrite andb_false_r.
  - simpl in H. apply andb_true_iff in H as [Hc H].
    destruct (numeral_char_plain c Hc) as [_ [_ [Nl _]]].
    cbn [count_from match_here]. rewrite Nl, (IH _ H).
    now rewrite andb_false_r.
Qed.

Lemma count_limit_in_suffix (x : str) :
  forallb is_numeral_char x = true ->
  count_from (compile (L "\blimit\b")) None (L " as subquery limit " ++ x) = 1.
Proof.
  intros H.
  change (L " as subquery limit " ++ x)
    with (L " as subquery limit" ++ " " :: x).
  pose proof (count_limit_in_numerals x (Some " "%char) H) as Z.
  change (compile (L "\blimit\b"))
    with [WordB; Lit "l"; Lit "i"; Lit "m"; Lit "i"; Lit "t"; WordB] in *.
  cbn. cbn in Z. rewrite Z. reflexivity.
Qed.

(** X9. For every row cap, an accepted [select] statement without LIMIT
    keyword is rewritten to the wrapped query that ends with the decimal
    numeral of the cap: the numeral reads back as the cap, and the folded
    output has exactly one LIMIT keyword. *)
Theorem limiter_wraps_with_any_cap (sql s : str) (max_rows : Z) :
  _validate_sql sql = Returned s ->
  startswith (L "select") (lower s) = true ->
  re_search "\blimit\b" (lower s) = false ->
  _wrap_query_with_limit s max_rows
    = L "SELECT * FROM (" ++ strip s ++ L ") AS subquery LIMIT "
        ++ format_int max_rows
  /\ decimal_value (format_int max_rows) = Some max_rows
  /\ re_count "\blimit\b" (lower (_wrap_query_with_limit s max_rows)) = 1.
Proof.
  intros V Sel Lim. pose proof (returned_shape sql s V) as Sh.
  rewrite (wrap_of_accepted s _ Sh), Sel, Lim. cbn [negb].
  split; [reflexivity|]. split; [apply decimal_value_format_int|].
  rewrite lower_wrapped_any. unfold re_count.
  rewrite (count_from_barrier _ "(") by reflexivity.
  rewrite (count_from_barrier _ ")") by reflexivity.
  rewrite (count_from_zero _ (lower (strip s))).
  - rewrite count_limit_in_suffix by apply format_int_chars. reflexivity.
  - fold (re_search "\blimit\b" (lower (strip s))).
    rewrite search_strip; auto.
Qed.

Lemma limiter_wraps_with_any_cap_witness :
  _wrap_query_with_limit (L "SELECT a FROM tablename") 25
  = L "SELECT * FROM (SELECT a FROM tablename) AS subquery LIMIT 25"
  /\ decimal_value (format_int 25) = Some 25%Z.
Proof.
  destruct (limiter_wraps_with_any_cap
              (L "SELECT a FROM tablename;") (L "SELECT a FROM tablename") 25)
    as [H1 [H2 _]].
  - vm_compute. reflexivity.
  - vm_compute. reflexivity.
  - vm_compute. reflexivity.
  - split; [exact H1 | exact H2].
Defined.

(** ** The query handler *)

(** X10. When the engine raises no [HTTPException] of its own, every
    failure of [run_query] is an [HTTPException] with status 400: a
    rejection by the Validator with the reason of the first violated rule,
    or the engine's failure on the rewritten statement, reported as
    [Query failed: ...]. *)
Theorem run_query_failures_are_400
  (value : Type) (execute : str -> execution value) (body : str)
  (e : HTTPException) :
  (forall q h, execute q <> Fails (HTTPError h)) ->
  run_query execute body = Raised e ->
  status_code e = 400%Z
  /\ ((exists r, first_violation body = Some r /\ e = bad_request (reason r))
      \/ (exists q msg,
            final_sql body = Returned q
            /\ execute q = Fails (OtherError msg)
            /\ e = bad_request ("Query failed: " ++ msg)%string)).
Proof.
  intros NoHTTP. unfold run_query, bind.
  destruct (final_sql body) as [q|e'] eqn:F.
  - destruct (execute q) as [[h|msg]| |d f] eqn:X; try discriminate.
    + now elim (NoHTTP q h).
    + intros H. injection H as <-. split; [reflexivity|].
      right. exists q, msg. auto.
  - intros H. injection H as ->. unfold final_sql, bind in F.
    rewrite validate_first_violation in F. unfold Validator in F.
    destruct (first_violation body) as [r|]; [|discriminate].
    injection F as <-. split; [reflexivity|]. left. now exists r.
Qed.

Lemma run_query_failures_are_400_witness :
  status_code (bad_request "Query failed: Binder Error") = 400%Z.
Proof.
  apply (run_query_failures_are_400 unit
           (fun _ => Fails (OtherError "Binder Error"))
           (L "SELECT missing FROM tablename")).
  - intros q h. discriminate.
  - vm_compute. reflexivity.
Defined.

(** X11. [run_query] consults the engine on safe statements only: a
    rejected input fails with the Validator's exception whatever the engine
    is, and two engines that agree on every safe statement give the same
    response to every input. *)
Theorem run_query_consults_engine_on_safe_statements
  (value : Type) (execute1 execute2 : str -> execution value) (body : str) :
  (forall q, safe_statement q = true -> execute1 q = execute2 q) ->
  run_query execute1 body = run_query execute2 body
  /\ (forall e, _validate_sql body = Raised e ->
                run_query execute1 body = Raised e).
Proof.
  intros Agree. unfold run_query, final_sql, bind.
  destruct (_validate_sql body) as [s|e] eqn:V.
  - split; [|discriminate].
    now rewrite (Agree _ (limited_statement_safe body s V)).
  - split; [reflexivity|]. now intros e' [= ->].
Qed.

Lemma run_query_consults_engine_on_safe_statements_witness :
  run_query (value := unit)
    (fun q => if safe_statement q then NoResultSet else Fails (OtherError "unsafe"))
    (L "UPDATE tablename SET x = 1;")
  = run_query (fun _ => NoResultSet) (L "UPDATE tablename SET x = 1;").
Proof.
  apply (run_query_consults_engine_on_safe_statements unit).
  intros q H. now rewrite H.
Defined.

(** ** The upload handler *)

Lemma startswith_split (p s : str) :
  startswith p s = true <-> exists r, s = p ++ r.
Proof.
  revert s. induction p as [|c p IH]; intros s; simpl.
  - split; [now exists s | reflexivity].
  - destruct s as [|x s]; [split; [discriminate | intros [r H]; discriminate]|].
    rewrite andb_true_iff, Ascii.eqb_eq, IH. split.
    + intros [-> [r ->]]. now exists r.
    + intros [r H]. injection H as -> ->. split; [reflexivity | now exists r].
Qed.

Lemma endswith_split (suffix s : str) :
  endswith suffix s = true <-> exists pre, s = pre ++ suffix.
Proof.
  unfold endswith. rewrite startswith_split. split.
  - intros [r H]. exists (rev r).
    apply (f_equal (@rev ascii)) in H.
    now rewrite rev_involutive, rev_app_distr, rev_involutive in H.
  - intros [pre ->]. exists (rev pre). apply rev_app_distr.
Qed.

Lemma csv_name_split (filename : str) :
  endswith (L ".csv") (lower filename) = true <->
  exists stem ext, filename = stem ++ ext /\ lower ext = L ".csv".
Proof.
  rewrite endswith_split. split.
  - intros [pre H]. unfold lower in H.
    apply map_eq_app in H as [stem [ext [E [_ X]]]]. now exists stem, ext.
  - intros [stem [ext [-> X]]]. exists (lower stem). now rewrite lower_app, X.
Qed.

(** X12. [upload_csv] refuses a file with status 400 and the reason
    [Only .csv files are supported.] exactly when its name does not end in
    [.csv] in some letter case; the refusal needs no read of the file. *)
Theorem upload_refuses_other_extensions
  (reader : Type) (read : reader -> N -> list Byte.byte * reader)
  (load : list Byte.byte -> string + Z)
  (fuel : nat) (filename : str) (file : reader) :
  upload_csv read load fuel filename file
  = Some (Raised (mkHTTPException 400 "Only .csv files are supported."))
  <-> (forall stem ext, filename = stem ++ ext -> lower ext <> L ".csv").
Proof.
  unfold upload_csv.
  destruct (endswith (L ".csv") (lower filename)) eqn:G; cbn [negb].
  - apply csv_name_split in G as [stem [ext [E X]]]. split.
    + destruct (copy_chunks read fuel file []) as [temp|]; [|discriminate].
      destruct (load temp); discriminate.
    + intros H. now elim (H stem ext E).
  - split; [|reflexivity]. intros _ stem ext E X.
    assert (T : endswith (L ".csv") (lower filename) = true)
      by (apply csv_name_split; now exists stem, ext).
    rewrite T in G. discriminate G.
Qed.

Lemma copy_chunks_complete
  (reader : Type) (read : reader -> N -> list Byte.byte * reader)
  (content : reader -> list Byte.byte) :
  (forall r, content r = fst (read r CHUNK_SIZE) ++ content (snd (read r CHUNK_SIZE))
             /\ (fst (read r CHUNK_SIZE) = [] -> content r = [])) ->
  forall fuel file tmp,
    List.length (content file) < fuel ->
    copy_chunks read fuel file tmp = Some (tmp ++ content file).
Proof.
  intros Contract. induction fuel as [|fuel IH]; intros file tmp Hf; [lia|].
  cbn [copy_chunks]. destruct (Contract file) as [E Z].
  destruct (read file CHUNK_SIZE) as [chunk file']. cbn [fst snd] in *.
  destruct chunk as [|b chunk].
  - now rewrite (Z eq_refl), app_nil_r.
  - rewrite IH.
    + now rewrite E, app_assoc.
    + rewrite E in Hf. simpl in Hf. rewrite length_app in Hf. lia.
Qed.

(** X13. For a file whose name ends in [.csv] and whose [read] returns
    the next bytes of the content, empty only at its end, the chunked copy
    of [upload_csv] ends and hands the loader exactly the uploaded bytes:
    the response is the loader's row count, or status 500 with the loader's
    failure after [Failed to load CSV: ]. *)
Theorem upload_loads_uploaded_bytes
  (reader : Type) (read : reader -> N -> list Byte.byte * reader)
  (load : list Byte.byte -> string + Z)
  (content : reader -> list Byte.byte)
  (fuel : nat) (filename : str) (file : reader) :
  (forall r, content r = fst (read r CHUNK_SIZE) ++ content (snd (read r CHUNK_SIZE))
             /\ (fst (read r CHUNK_SIZE) = [] -> content r = [])) ->
  endswith (L ".csv") (lower filename) = true ->
  List.length (content file) < fuel ->
  upload_csv read load fuel filename file
  = Some (match load (content file) with
          | inl e => Raised (mkHTTPException 500 ("Failed to load CSV: " ++ e)%string)
          | inr n => Returned (mkUploadResponse "ok" n)
          end).
Proof.
  intros Contract G Hf. unfold upload_csv. rewrite G. cbn [negb].
  rewrite (copy_chunks_complete reader read content Contract fuel file [] Hf).
  cbn [app]. now destruct (load (content file)).
Qed.

Lemma memory_read_contract (r : list Byte.byte) :
  r = fst (memory_read r CHUNK_SIZE) ++ snd (memory_read r CHUNK_SIZE)
  /\ (fst (memory_read r CHUNK_SIZE) = [] -> r = []).
Proof.
  unfold memory_read. cbn [fst snd]. split.
  - symmetry. apply firstn_skipn.
  - assert (P : 0 < N.to_nat CHUNK_SIZE) by (unfold CHUNK_SIZE; lia).
    destruct (N.to_nat CHUNK_SIZE) as [|k]; [lia|].
    destruct r; [reflexivity | discriminate].
Qed.

Lemma upload_loads_uploaded_bytes_witness :
  upload_csv memory_read (fun bytes => inr (Z.of_nat (List.length bytes))) 4
             (L "Data.CSV") [Byte.x61; Byte.x2c; Byte.x62]
  = Some (Returned (mkUploadResponse "ok" 3)).
Proof.
  apply (upload_loads_uploaded_bytes (list Byte.byte) memory_read
           (fun bytes => inr (Z.of_nat (List.length bytes))) (fun r => r)).
  - apply memory_read_contract.
  - vm_compute. reflexivity.
  - simpl. lia.
Defined.
